(** * UANS_ChangeCapsuleBase: a timed capsule-attribute blending notify

    Shallow embedding of
    [Source/UnrealHelperLibrary/Private/Animation/Notifies/ANS_ChangeCapsuleBase.cpp]
    and the properties of its three lifecycle entry points
    [NotifyBegin], [NotifyTick] and [NotifyEnd].

    Modelling conventions.
    - [float] values are idealised as exact rationals ([Q]); numbers that the
      code copies are compared with Leibniz equality, numbers that it computes
      with [==].  Where the rounding of single precision would decide a
      statement, the statement is phrased on what the code has in hand (the
      clock member, the evaluators, the [Lerp] expression it writes) rather
      than on exact sums or on the exact value of an interpolation; module
      [Single] gives [FMath::Lerp] with its rounding.
    - The notify object is split into its designer-facing properties
      ([NotifyConfig], never assigned by the code) and its run-time members
      ([NotifyState]).
    - Pointers to capsule components are addresses into a store
      [ptr -> UCapsuleComponent]; [nullptr] is [None].
    - Every engine setter is a plain store to the field it names (what the
      engine does to other fields behind a setter is outside the repository),
      and every call is appended to a chronological log of writes, so that
      "is written" and "holds the value" can both be stated.
    - The locator [FindCapsuleComponent], the constants [ECC_MAX] and
      [KINDA_SMALL_NUMBER] and the conversion [FLinearColor::ToFColor] are
      declared outside this source file and are parameters of the development.
    - [Super::Notify*] and the debug drawing are read-only with respect to the
      capsule and the notify members and are left out. *)

From Stdlib Require Import QArith Qround Lqa Bool List String ZArith Lia.
From Stdlib Require SpecFloat.
Import ListNotations.
Open Scope Q_scope.

(** ** Numbers *)

Definition Qlt_bool (x y : Q) : bool := negb (Qle_bool y x).

Module FMath.

(** [FMath::Clamp(X, Min, Max)]. *)
Definition Clamp (X Min Max : Q) : Q :=
  if Qlt_bool X Min then Min else if Qlt_bool X Max then X else Max.

(** [FMath::Lerp(A, B, Alpha)], that is [A + Alpha * (B - A)]. *)
Definition Lerp (A B Alpha : Q) : Q := A + Alpha * (B - A).

End FMath.

(** ** Single precision

    The source computes in IEEE 754 single precision.  This module gives
    [FMath::Lerp] on binary32 values, each operation rounding to nearest, for
    the places where the rounding of an interpolation decides what can be
    said of the value written. *)

Module Single.

Definition prec : Z := 24%Z.

Definition emax : Z := 128%Z.

Definition t : Type := SpecFloat.spec_float.


Definition add (x y : t) : t := SpecFloat.SFadd prec emax x y.

Definition sub (x y : t) : t := SpecFloat.SFsub prec emax x y.

Definition mul (x y : t) : t := SpecFloat.SFmul prec emax x y.

(** [FMath::Lerp(A, B, Alpha)], that is [A + Alpha * (B - A)]. *)
Definition Lerp (A B Alpha : t) : t := add A (mul Alpha (sub B A)).

End Single.

(** ** Engine value types *)

Module FVector.

Record t : Type := mk { X : Q; Y : Q; Z : Q }.

Definition Lerp (A B : t) (Alpha : Q) : t :=
  mk (FMath.Lerp (X A) (X B) Alpha)
     (FMath.Lerp (Y A) (Y B) Alpha)
     (FMath.Lerp (Z A) (Z B) Alpha).

(** Component-wise numeric equality. *)
Definition equiv (a b : t) : Prop :=
  X a == X b /\ Y a == Y b /\ Z a == Z b.

End FVector.

Module FColor.

(** Four [uint8] channels. *)
Record t : Type := mk { R : Z; G : Z; B : Z; A : Z }.

End FColor.

Module FLinearColor.

Record t : Type := mk { R : Q; G : Q; B : Q; A : Q }.

Definition Lerp (a b : t) (Alpha : Q) : t :=
  mk (FMath.Lerp (R a) (R b) Alpha)
     (FMath.Lerp (G a) (G b) Alpha)
     (FMath.Lerp (B a) (B b) Alpha)
     (FMath.Lerp (A a) (A b) Alpha).

Definition equiv (a b : t) : Prop :=
  R a == R b /\ G a == G b /\ B a == B b /\ A a == A b.

End FLinearColor.

(** [FColor::ReinterpretAsLinear]: each channel divided by 255. *)
Definition ReinterpretAsLinear (c : FColor.t) : FLinearColor.t :=
  FLinearColor.mk (inject_Z (FColor.R c) / 255) (inject_Z (FColor.G c) / 255)
                  (inject_Z (FColor.B c) / 255) (inject_Z (FColor.A c) / 255).

Inductive ECollisionEnabled : Type :=
  | NoCollision | QueryOnly | PhysicsOnly | QueryAndPhysics | ProbeOnly | QueryAndProbe.

Inductive ECollisionResponse : Type := ECR_Ignore | ECR_Overlap | ECR_Block.

(** [ECollisionChannel] values are the integers the code casts them from. *)
Definition ECollisionChannel : Type := nat.

Definition FName : Type := string.

(** ** TMap<ECollisionChannel, ECollisionResponse>

    Kept as an association list in iteration order; [Add] replaces the value
    of a key that is already present and appends a new key otherwise. *)

Module TMap.

Definition t : Type := list (ECollisionChannel * ECollisionResponse).

Definition Empty : t := [].

Fixpoint Add (k : ECollisionChannel) (v : ECollisionResponse) (m : t) : t :=
  match m with
  | [] => [(k, v)]
  | (k', v') :: m' => if Nat.eqb k' k then (k, v) :: m' else (k', v') :: Add k v m'
  end.

End TMap.

(** ** The alpha-blend evaluator *)

Inductive EAlphaBlendOption : Type :=
  | Linear
  | Shaped (f : Q -> Q).

Module FAlphaBlend.

(** Modelled from the spec: the engine class [FAlphaBlend] is not part of the
    repository source.  The spec describes a blend evaluator as
    "parameterized by a duration and an interpolation-shape selector,
    carrying its own internal progress state advanced by elapsed frame
    time", whose "normalized blended value" is "already shape-mapped, range
    [0,1]", a duration of zero being an instant blend.  [Shaped f] stands for
    a non-linear option through the mapping [f] it applies to the linear
    alpha. *)
Record t : Type := mk {
  BlendTime : Q;
  BlendOption : EAlphaBlendOption;
  Progress : Q
}.

(** Modelled from the spec: [FAlphaBlend(const FAlphaBlendArgs&)], a fresh
    evaluator with no progress. *)
Definition Create (InBlendTime : Q) (InBlendOption : EAlphaBlendOption) : t :=
  mk InBlendTime InBlendOption 0.

(** Modelled from the spec: [FAlphaBlend::Update], progress advanced by the
    frame time. *)
Definition Update (InDeltaTime : Q) (b : t) : t :=
  mk (BlendTime b) (BlendOption b) (Progress b + InDeltaTime).

(** Modelled from the spec: the linear alpha, progress over duration kept in
    [0,1]; complete at once when the duration is zero. *)
Definition GetAlpha (b : t) : Q :=
  if Qle_bool (BlendTime b) 0 then 1
  else FMath.Clamp (Progress b / BlendTime b) 0 1.

(** Modelled from the spec: [FAlphaBlend::GetBlendedValue]. *)
Definition GetBlendedValue (b : t) : Q :=
  match BlendOption b with
  | Linear => GetAlpha b
  | Shaped f => FMath.Clamp (f (GetAlpha b)) 0 1
  end.

End FAlphaBlend.

(** The rich curve behind [EaseCurve]: its number of keys and its evaluation. *)
Record FRichCurve : Type := {
  GetNumKeys : nat;
  Eval : Q -> Q
}.

(** ** Collision settings bundle (type of [CapsuleCollisionSettings] and
    [OriginalCapsuleSettings]) *)

Record FCollisionSettings : Type := {
  CollisionEnabled : ECollisionEnabled;
  bForceQueryOnly : bool;
  bOverrideCollisionEnabled : bool;
  CollisionProfileName : FName;
  bOverrideCollisionProfileName : bool;
  bGenerateOverlapEvents : bool;
  bOverrideGenerateOverlapEvents : bool;
  CustomResponses : TMap.t;
  bOverrideCustomResponses : bool
}.

(** ** The capsule component, as seen through the accessors the notify uses *)

Record UCapsuleComponent : Type := {
  GetUnscaledCapsuleRadius : Q;
  GetUnscaledCapsuleHalfHeight : Q;
  GetRelativeScale3D : FVector.t;
  LineThickness : Q;
  ShapeColor : FColor.t;
  GetCollisionEnabled : ECollisionEnabled;
  GetCollisionProfileName : FName;
  GetGenerateOverlapEvents : bool;
  GetCollisionResponseToChannel : ECollisionChannel -> ECollisionResponse
}.

Definition ptr : Type := nat.

(** One setter call on a capsule component. *)
Inductive Write : Type :=
  | WCapsuleRadius (r : Q)
  | WCapsuleHalfHeight (h : Q)
  | WRelativeScale3D (v : FVector.t)
  | WLineThickness (t : Q)
  | WShapeColor (c : FColor.t)
  | WCollisionEnabled (m : ECollisionEnabled)
  | WCollisionProfileName (n : FName)
  | WGenerateOverlapEvents (b : bool)
  | WCollisionResponseToChannel (ch : ECollisionChannel) (r : ECollisionResponse).

Definition apply_write (e : Write) (c : UCapsuleComponent) : UCapsuleComponent :=
  match e with
  | WCapsuleRadius r =>
      Build_UCapsuleComponent r (GetUnscaledCapsuleHalfHeight c) (GetRelativeScale3D c)
        (LineThickness c) (ShapeColor c) (GetCollisionEnabled c)
        (GetCollisionProfileName c) (GetGenerateOverlapEvents c)
        (GetCollisionResponseToChannel c)
  | WCapsuleHalfHeight h =>
      Build_UCapsuleComponent (GetUnscaledCapsuleRadius c) h (GetRelativeScale3D c)
        (LineThickness c) (ShapeColor c) (GetCollisionEnabled c)
        (GetCollisionProfileName c) (GetGenerateOverlapEvents c)
        (GetCollisionResponseToChannel c)
  | WRelativeScale3D v =>
      Build_UCapsuleComponent (GetUnscaledCapsuleRadius c) (GetUnscaledCapsuleHalfHeight c) v
        (LineThickness c) (ShapeColor c) (GetCollisionEnabled c)
        (GetCollisionProfileName c) (GetGenerateOverlapEvents c)
        (GetCollisionResponseToChannel c)
  | WLineThickness t =>
      Build_UCapsuleComponent (GetUnscaledCapsuleRadius c) (GetUnscaledCapsuleHalfHeight c)
        (GetRelativeScale3D c) t (ShapeColor c) (GetCollisionEnabled c)
        (GetCollisionProfileName c) (GetGenerateOverlapEvents c)
        (GetCollisionResponseToChannel c)
  | WShapeColor col =>
      Build_UCapsuleComponent (GetUnscaledCapsuleRadius c) (GetUnscaledCapsuleHalfHeight c)
        (GetRelativeScale3D c) (LineThickness c) col (GetCollisionEnabled c)
        (GetCollisionProfileName c) (GetGenerateOverlapEvents c)
        (GetCollisionResponseToChannel c)
  | WCollisionEnabled m =>
      Build_UCapsuleComponent (GetUnscaledCapsuleRadius c) (GetUnscaledCapsuleHalfHeight c)
        (GetRelativeScale3D c) (LineThickness c) (ShapeColor c) m
        (GetCollisionProfileName c) (GetGenerateOverlapEvents c)
        (GetCollisionResponseToChannel c)
  | WCollisionProfileName n =>
      Build_UCapsuleComponent (GetUnscaledCapsuleRadius c) (GetUnscaledCapsuleHalfHeight c)
        (GetRelativeScale3D c) (LineThickness c) (ShapeColor c) (GetCollisionEnabled c)
        n (GetGenerateOverlapEvents c) (GetCollisionResponseToChannel c)
  | WGenerateOverlapEvents b =>
      Build_UCapsuleComponent (GetUnscaledCapsuleRadius c) (GetUnscaledCapsuleHalfHeight c)
        (GetRelativeScale3D c) (LineThickness c) (ShapeColor c) (GetCollisionEnabled c)
        (GetCollisionProfileName c) b (GetCollisionResponseToChannel c)
  | WCollisionResponseToChannel ch r =>
      Build_UCapsuleComponent (GetUnscaledCapsuleRadius c) (GetUnscaledCapsuleHalfHeight c)
        (GetRelativeScale3D c) (LineThickness c) (ShapeColor c) (GetCollisionEnabled c)
        (GetCollisionProfileName c) (GetGenerateOverlapEvents c)
        (fun ch' => if Nat.eqb ch' ch then r else GetCollisionResponseToChannel c ch')
  end.

(** ** The notify object *)

(** Designer-facing properties; the code only reads them. *)
Record NotifyConfig : Type := {
  bModifyRadius : bool;          NewRadius : Q;
  bModifyHalfHeight : bool;      NewHalfHeight : Q;
  bModifyScale : bool;           NewScale : FVector.t;
  bModifyLineThickness : bool;   NewLineThickness : Q;
  bModifyShapeColor : bool;      NewShapeColor : FLinearColor.t;
  BlendTimeIn : Q;
  BlendTimeOut : Q;
  BlendOptionIn : EAlphaBlendOption;
  BlendOptionOut : EAlphaBlendOption;
  EaseCurve : option FRichCurve;
  bDebug : bool;
  CapsuleCollisionSettings : FCollisionSettings
}.

(** Run-time members. *)
Record NotifyState : Type := {
  ElapsedTime : Q;
  NotifyTotalDuration : Q;
  bHasValidOriginals : bool;
  CapsuleComp : option ptr;
  OriginalRadius : Q;
  OriginalHalfHeight : Q;
  OriginalScale : FVector.t;
  OriginalLineThickness : Q;
  OriginalShapeColor : FLinearColor.t;
  TargetRadius : Q;
  TargetHalfHeight : Q;
  TargetScale : FVector.t;
  TargetLineThickness : Q;
  TargetShapeColor : FLinearColor.t;
  BlendInAlpha : FAlphaBlend.t;
  BlendOutAlpha : FAlphaBlend.t;
  OriginalCapsuleSettings : FCollisionSettings
}.

(** The notify members, the component store, and the log of setter calls
    (oldest first). *)
Record State : Type := {
  self : NotifyState;
  world : ptr -> UCapsuleComponent;
  writes : list (ptr * Write)
}.

(** Commands: the [void] member functions, as state transformers. *)
Definition cmd : Type := State -> State.

Definition skip : cmd := fun st => st.
Definition seq (a b : cmd) : cmd := fun st => b (a st).
Definition when (b : bool) (c : cmd) : cmd := if b then c else skip.

Declare Scope cmd_scope.
Delimit Scope cmd_scope with cmd.
Notation "a ;; b" := (seq a b) (at level 61, right associativity) : cmd_scope.

Definition set_self (s : NotifyState) : cmd :=
  fun st => Build_State s (world st) (writes st).

(** A setter call through pointer [p]. *)
Definition write (p : ptr) (e : Write) : cmd :=
  fun st =>
    Build_State (self st)
      (fun q => if Nat.eqb q p then apply_write e (world st p) else world st q)
      (writes st ++ [(p, e)]).

Definition SetCapsuleRadius (p : ptr) (r : Q) : cmd := write p (WCapsuleRadius r).
Definition SetCapsuleHalfHeight (p : ptr) (h : Q) : cmd := write p (WCapsuleHalfHeight h).
Definition SetRelativeScale3D (p : ptr) (v : FVector.t) : cmd := write p (WRelativeScale3D v).
Definition SetLineThickness (p : ptr) (t : Q) : cmd := write p (WLineThickness t).
Definition SetShapeColor (p : ptr) (c : FColor.t) : cmd := write p (WShapeColor c).
Definition SetCollisionEnabled (p : ptr) (m : ECollisionEnabled) : cmd :=
  write p (WCollisionEnabled m).
Definition SetCollisionProfileName (p : ptr) (n : FName) : cmd :=
  write p (WCollisionProfileName n).
Definition SetGenerateOverlapEvents (p : ptr) (b : bool) : cmd :=
  write p (WGenerateOverlapEvents b).
Definition SetCollisionResponseToChannel (p : ptr) (ch : ECollisionChannel)
    (r : ECollisionResponse) : cmd :=
  write p (WCollisionResponseToChannel ch r).

(** [for (auto& Pair : M) CapsuleComp->SetCollisionResponseToChannel(Pair.Key, Pair.Value)]. *)
Definition SetResponses (p : ptr) (m : TMap.t) : cmd :=
  fun st => fold_left (fun st kv => SetCollisionResponseToChannel p (fst kv) (snd kv) st) m st.

Inductive TickPhase : Type := BlendInPhase | HoldPhase | BlendOutPhase | ZeroBlendCase.

(** ** Sample inputs

    Concrete configurations and stores on which the statements below are
    exercised. *)

Module Sample.

(** A host with a single mesh whose capsule lives at address 0. *)
Definition Mesh : Type := unit.
Definition Locate (m : Mesh) : option ptr := Some 0%nat.
Definition LocateNothing (m : Mesh) : option ptr := None.

Definition ECC_MAX : nat := 33.
Definition KINDA_SMALL_NUMBER : Q := 1 # 10000.

(** A stand-in for the engine conversion: each channel scaled to 0..255 and
    rounded down. *)
Definition ToFColor (c : FLinearColor.t) (bSRGB : bool) : FColor.t :=
  FColor.mk (Qfloor (FLinearColor.R c * 255)) (Qfloor (FLinearColor.G c * 255))
            (Qfloor (FLinearColor.B c * 255)) (Qfloor (FLinearColor.A c * 255)).

Definition Capsule : UCapsuleComponent :=
  {| GetUnscaledCapsuleRadius := 30;
     GetUnscaledCapsuleHalfHeight := 60;
     GetRelativeScale3D := FVector.mk 1 1 1;
     LineThickness := 5;
     ShapeColor := FColor.mk 255 0 0 255;
     GetCollisionEnabled := QueryAndPhysics;
     GetCollisionProfileName := "Pawn"%string;
     GetGenerateOverlapEvents := true;
     GetCollisionResponseToChannel := fun _ => ECR_Block |}.

Definition NoSettings : FCollisionSettings :=
  {| CollisionEnabled := NoCollision;
     bForceQueryOnly := false;
     bOverrideCollisionEnabled := false;
     CollisionProfileName := "None"%string;
     bOverrideCollisionProfileName := false;
     bGenerateOverlapEvents := false;
     bOverrideGenerateOverlapEvents := false;
     CustomResponses := [];
     bOverrideCustomResponses := false |}.

(** Overrides of the collision mode (forced to query-only) and of two
    channels; profile name and overlap events are left alone. *)
Definition Overrides : FCollisionSettings :=
  {| CollisionEnabled := NoCollision;
     bForceQueryOnly := true;
     bOverrideCollisionEnabled := true;
     CollisionProfileName := "Ragdoll"%string;
     bOverrideCollisionProfileName := false;
     bGenerateOverlapEvents := false;
     bOverrideGenerateOverlapEvents := false;
     CustomResponses := [(2%nat, ECR_Overlap); (3%nat, ECR_Ignore)];
     bOverrideCustomResponses := true |}.

(** The notify members before any Begin. *)
Definition Fresh : NotifyState :=
  {| ElapsedTime := 0;
     NotifyTotalDuration := 0;
     bHasValidOriginals := false;
     CapsuleComp := None;
     OriginalRadius := 0;
     OriginalHalfHeight := 0;
     OriginalScale := FVector.mk 0 0 0;
     OriginalLineThickness := 0;
     OriginalShapeColor := FLinearColor.mk 0 0 0 0;
     TargetRadius := 0;
     TargetHalfHeight := 0;
     TargetScale := FVector.mk 0 0 0;
     TargetLineThickness := 0;
     TargetShapeColor := FLinearColor.mk 0 0 0 0;
     BlendInAlpha := FAlphaBlend.Create 0 Linear;
     BlendOutAlpha := FAlphaBlend.Create 0 Linear;
     OriginalCapsuleSettings := NoSettings |}.

Definition Start : State :=
  {| self := Fresh; world := fun _ => Capsule; writes := [] |}.

(** Radius 30 -> 50 and line thickness -> 2, blended over 1/2 in and 1/2 out,
    linear, no ease curve, with the collision overrides above. *)
Definition Blended : NotifyConfig :=
  {| bModifyRadius := true;          NewRadius := 50;
     bModifyHalfHeight := false;     NewHalfHeight := 0;
     bModifyScale := false;          NewScale := FVector.mk 1 1 1;
     bModifyLineThickness := true;   NewLineThickness := 2;
     bModifyShapeColor := false;     NewShapeColor := FLinearColor.mk 0 0 0 0;
     BlendTimeIn := 1 # 2;
     BlendTimeOut := 1 # 2;
     BlendOptionIn := Linear;
     BlendOptionOut := Linear;
     EaseCurve := None;
     bDebug := false;
     CapsuleCollisionSettings := Overrides |}.

(** Every attribute modified, both blend durations zero. *)
Definition Instant (Curve : option FRichCurve) : NotifyConfig :=
  {| bModifyRadius := true;          NewRadius := 50;
     bModifyHalfHeight := true;      NewHalfHeight := 90;
     bModifyScale := true;           NewScale := FVector.mk 2 2 2;
     bModifyLineThickness := true;   NewLineThickness := 2;
     bModifyShapeColor := true;      NewShapeColor := FLinearColor.mk 0 1 0 1;
     BlendTimeIn := 0;
     BlendTimeOut := 0;
     BlendOptionIn := Linear;
     BlendOptionOut := Linear;
     EaseCurve := Curve;
     bDebug := false;
     CapsuleCollisionSettings := NoSettings |}.






(** A host with two meshes, whose capsules live at addresses 0 and 1. *)
Definition LocateTwo (m : bool) : option ptr := Some (if m then 1%nat else 0%nat).

End Sample.

(** ** Write logs and their effect on the store *)

(** The store after one more logged setter call. *)
Definition replay_step (w : ptr -> UCapsuleComponent) (pe : ptr * Write)
    : ptr -> UCapsuleComponent :=
  fun q => if Nat.eqb q (fst pe) then apply_write (snd pe) (w (fst pe)) else w q.

Definition replay (l : list (ptr * Write)) (w : ptr -> UCapsuleComponent)
    : ptr -> UCapsuleComponent :=
  fold_left replay_step l w.

(** [c], started in [st], issues exactly the setter calls [l]. *)
Definition issues (c : cmd) (st : State) (l : list (ptr * Write)) : Prop :=
  writes (c st) = writes st ++ l /\ world (c st) = replay l (world st).

(** Every setter call that [c] issues from [st] satisfies [P]. *)
Definition TracksAt (P : ptr * Write -> Prop) (c : cmd) (st : State) : Prop :=
  exists l, issues c st l /\ Forall P l.

Definition Tracks (P : ptr * Write -> Prop) (c : cmd) : Prop :=
  forall st, TracksAt P c st.

(** The accessor that a setter call changes. *)
Inductive Kind : Type :=
  | KRadius | KHalfHeight | KScale | KLineThickness | KShapeColor
  | KCollisionEnabled | KProfileName | KOverlapEvents | KResponse.

Definition kind (e : Write) : Kind :=
  match e with
  | WCapsuleRadius _ => KRadius
  | WCapsuleHalfHeight _ => KHalfHeight
  | WRelativeScale3D _ => KScale
  | WLineThickness _ => KLineThickness
  | WShapeColor _ => KShapeColor
  | WCollisionEnabled _ => KCollisionEnabled
  | WCollisionProfileName _ => KProfileName
  | WGenerateOverlapEvents _ => KOverlapEvents
  | WCollisionResponseToChannel _ _ => KResponse
  end.

(** Two components read the same through the accessor of kind [k]. *)
Definition same_on (k : Kind) (c c' : UCapsuleComponent) : Prop :=
  match k with
  | KRadius => GetUnscaledCapsuleRadius c = GetUnscaledCapsuleRadius c'
  | KHalfHeight => GetUnscaledCapsuleHalfHeight c = GetUnscaledCapsuleHalfHeight c'
  | KScale => GetRelativeScale3D c = GetRelativeScale3D c'
  | KLineThickness => LineThickness c = LineThickness c'
  | KShapeColor => ShapeColor c = ShapeColor c'
  | KCollisionEnabled => GetCollisionEnabled c = GetCollisionEnabled c'
  | KProfileName => GetCollisionProfileName c = GetCollisionProfileName c'
  | KOverlapEvents => GetGenerateOverlapEvents c = GetGenerateOverlapEvents c'
  | KResponse =>
      forall ch, GetCollisionResponseToChannel c ch = GetCollisionResponseToChannel c' ch
  end.

(** The five blended attributes, as opposed to the collision settings. *)
Definition is_attribute (k : Kind) : bool :=
  match k with
  | KRadius | KHalfHeight | KScale | KLineThickness | KShapeColor => true
  | _ => false
  end.

Section Notify.

(** The host side that the source file leaves open. *)
Variable USkeletalMeshComponent : Type.

(** The virtual locator that a subclass supplies; [None] is [nullptr]. *)
Variable FindCapsuleComponent : USkeletalMeshComponent -> option ptr.

(** Engine constants used by the code and declared outside the repository. *)
Variable ECC_MAX : nat.
Variable KINDA_SMALL_NUMBER : Q.

(** [FLinearColor::ToFColor(bSRGB)], an engine conversion. *)
Variable ToFColor : FLinearColor.t -> bool -> FColor.t.

Variable cfg : NotifyConfig.

Local Open Scope cmd_scope.

(** *** SaveOriginalCollisionSettings (lines 248-275) *)

Definition SaveOriginalCollisionSettings : cmd := fun st =>
  match CapsuleComp (self st) with
  | None => st
  | Some p =>
      let c := world st p in
      let s := self st in
      set_self
        (Build_NotifyState (ElapsedTime s) (NotifyTotalDuration s) (bHasValidOriginals s)
           (CapsuleComp s)
           (OriginalRadius s) (OriginalHalfHeight s) (OriginalScale s)
           (OriginalLineThickness s) (OriginalShapeColor s)
           (TargetRadius s) (TargetHalfHeight s) (TargetScale s)
           (TargetLineThickness s) (TargetShapeColor s)
           (BlendInAlpha s) (BlendOutAlpha s)
           {| CollisionEnabled := GetCollisionEnabled c;
              bForceQueryOnly := false;
              bOverrideCollisionEnabled := true;
              CollisionProfileName := GetCollisionProfileName c;
              bOverrideCollisionProfileName := true;
              bGenerateOverlapEvents := GetGenerateOverlapEvents c;
              bOverrideGenerateOverlapEvents := true;
              CustomResponses :=
                fold_left
                  (fun m Chan => TMap.Add Chan (GetCollisionResponseToChannel c Chan) m)
                  (List.seq 0 ECC_MAX) TMap.Empty;
              bOverrideCustomResponses := true |})
        st
  end.

(** *** RestoreOriginalCollisionSettings (lines 277-293) *)

Definition RestoreOriginalCollisionSettings : cmd := fun st =>
  match CapsuleComp (self st) with
  | None => st
  | Some p =>
      let o := OriginalCapsuleSettings (self st) in
      (SetCollisionEnabled p (CollisionEnabled o) ;;
       SetCollisionProfileName p (CollisionProfileName o) ;;
       SetGenerateOverlapEvents p (bGenerateOverlapEvents o) ;;
       SetResponses p (CustomResponses o)) st
  end.

(** *** ApplyCollisionSettings (lines 295-325) *)

Definition ApplyCollisionSettings : cmd := fun st =>
  match CapsuleComp (self st) with
  | None => st
  | Some p =>
      let cs := CapsuleCollisionSettings cfg in
      (when (bOverrideCollisionEnabled cs)
         (let NewMode := CollisionEnabled cs in
          let NewMode := if bForceQueryOnly cs then QueryOnly else NewMode in
          SetCollisionEnabled p NewMode) ;;
       when (bOverrideCollisionProfileName cs)
         (SetCollisionProfileName p (CollisionProfileName cs)) ;;
       when (bOverrideGenerateOverlapEvents cs)
         (SetGenerateOverlapEvents p (bGenerateOverlapEvents cs)) ;;
       when (bOverrideCustomResponses cs)
         (SetResponses p (CustomResponses cs))) st
  end.

(** *** NotifyBegin (lines 8-93) *)

(** Lines 17-20: the members reset on every call. *)
Definition ResetMembers (TotalDuration : Q) (s : NotifyState) : NotifyState :=
  Build_NotifyState 0 TotalDuration false None
    (OriginalRadius s) (OriginalHalfHeight s) (OriginalScale s)
    (OriginalLineThickness s) (OriginalShapeColor s)
    (TargetRadius s) (TargetHalfHeight s) (TargetScale s)
    (TargetLineThickness s) (TargetShapeColor s)
    (BlendInAlpha s) (BlendOutAlpha s) (OriginalCapsuleSettings s).

(** Lines 28-63: the members once the capsule [p], currently [c], is found.
    [OriginalLineThickness] is read on line 44 and assigned nowhere. *)
Definition CaptureMembers (p : ptr) (c : UCapsuleComponent) (s : NotifyState)
    : NotifyState :=
  let OriginalRadius' := GetUnscaledCapsuleRadius c in
  let OriginalHalfHeight' := GetUnscaledCapsuleHalfHeight c in
  let OriginalScale' := GetRelativeScale3D c in
  let OriginalShapeColor' := ReinterpretAsLinear (ShapeColor c) in
  Build_NotifyState (ElapsedTime s) (NotifyTotalDuration s) true (Some p)
    OriginalRadius' OriginalHalfHeight' OriginalScale'
    (OriginalLineThickness s) OriginalShapeColor'
    (if bModifyRadius cfg then NewRadius cfg else OriginalRadius')
    (if bModifyHalfHeight cfg then NewHalfHeight cfg else OriginalHalfHeight')
    (if bModifyScale cfg then NewScale cfg else OriginalScale')
    (if bModifyLineThickness cfg then NewLineThickness cfg else OriginalLineThickness s)
    (if bModifyShapeColor cfg then NewShapeColor cfg else OriginalShapeColor')
    (FAlphaBlend.Create
       (if Qlt_bool KINDA_SMALL_NUMBER (BlendTimeIn cfg) then BlendTimeIn cfg else 0)
       (BlendOptionIn cfg))
    (FAlphaBlend.Create
       (if Qlt_bool KINDA_SMALL_NUMBER (BlendTimeOut cfg) then BlendTimeOut cfg else 0)
       (BlendOptionOut cfg))
    (OriginalCapsuleSettings s).

(** Lines 66-88: the snap to the target values. *)
Definition SnapToTargets (p : ptr) : cmd := fun st =>
  let s := self st in
  (when (bModifyRadius cfg) (SetCapsuleRadius p (TargetRadius s)) ;;
   when (bModifyHalfHeight cfg) (SetCapsuleHalfHeight p (TargetHalfHeight s)) ;;
   when (bModifyScale cfg) (SetRelativeScale3D p (TargetScale s)) ;;
   when (bModifyLineThickness cfg) (SetLineThickness p (TargetLineThickness s)) ;;
   when (bModifyShapeColor cfg)
     (SetShapeColor p (ToFColor (TargetShapeColor s) true))) st.

Definition NotifyBegin (MeshComp : option USkeletalMeshComponent) (TotalDuration : Q)
    : cmd := fun st =>
  let st := set_self (ResetMembers TotalDuration (self st)) st in
  match MeshComp with
  | None => st
  | Some Mesh =>
      match FindCapsuleComponent Mesh with
      | None => st
      | Some p =>
          (set_self (CaptureMembers p (world st p) (self st)) ;;
           when (Qle_bool (BlendTimeIn cfg) KINDA_SMALL_NUMBER) (SnapToTargets p) ;;
           SaveOriginalCollisionSettings ;;
           ApplyCollisionSettings) st
      end
  end.

(** *** NotifyTick (lines 95-202) *)

(** The conditions of lines 115, 121 and 126, tried in that order. *)
Definition SelectPhase (Elapsed TotalDuration : Q) : TickPhase :=
  if Qlt_bool KINDA_SMALL_NUMBER (BlendTimeIn cfg) && Qlt_bool Elapsed (BlendTimeIn cfg)
  then BlendInPhase
  else if Qle_bool (BlendTimeIn cfg) Elapsed
          && Qle_bool Elapsed (TotalDuration - BlendTimeOut cfg)
  then HoldPhase
  else if Qlt_bool KINDA_SMALL_NUMBER (BlendTimeOut cfg)
          && Qlt_bool (TotalDuration - BlendTimeOut cfg) Elapsed
  then BlendOutPhase
  else ZeroBlendCase.

(** Lines 112-134: the raw alpha, with the evaluators as the branch taken
    leaves them.  [s] already holds the advanced [ElapsedTime]. *)
Definition ComputeRawAlpha (FrameDeltaTime : Q) (s : NotifyState)
    : Q * FAlphaBlend.t * FAlphaBlend.t :=
  let '(RawAlpha, BlendIn, BlendOut) :=
    match SelectPhase (ElapsedTime s) (NotifyTotalDuration s) with
    | BlendInPhase =>
        let BlendIn := FAlphaBlend.Update FrameDeltaTime (BlendInAlpha s) in
        (FAlphaBlend.GetBlendedValue BlendIn, BlendIn, BlendOutAlpha s)
    | HoldPhase => (1, BlendInAlpha s, BlendOutAlpha s)
    | BlendOutPhase =>
        let BlendOut := FAlphaBlend.Update FrameDeltaTime (BlendOutAlpha s) in
        (1 - FAlphaBlend.GetBlendedValue BlendOut, BlendInAlpha s, BlendOut)
    | ZeroBlendCase => (1, BlendInAlpha s, BlendOutAlpha s)
    end in
  (FMath.Clamp RawAlpha 0 1, BlendIn, BlendOut).

(** Lines 137-141: the optional remap through [EaseCurve]. *)
Definition ApplyEaseCurve (RawAlpha : Q) : Q :=
  match EaseCurve cfg with
  | Some Curve =>
      if Nat.ltb 0 (GetNumKeys Curve)
      then FMath.Clamp (Eval Curve RawAlpha) 0 1
      else RawAlpha
  | None => RawAlpha
  end.

(** Line 109. *)
Definition AdvanceElapsed (FrameDeltaTime : Q) (s : NotifyState) : NotifyState :=
  Build_NotifyState (ElapsedTime s + FrameDeltaTime) (NotifyTotalDuration s)
    (bHasValidOriginals s) (CapsuleComp s)
    (OriginalRadius s) (OriginalHalfHeight s) (OriginalScale s)
    (OriginalLineThickness s) (OriginalShapeColor s)
    (TargetRadius s) (TargetHalfHeight s) (TargetScale s)
    (TargetLineThickness s) (TargetShapeColor s)
    (BlendInAlpha s) (BlendOutAlpha s) (OriginalCapsuleSettings s).

Definition SetBlends (BlendIn BlendOut : FAlphaBlend.t) (s : NotifyState) : NotifyState :=
  Build_NotifyState (ElapsedTime s) (NotifyTotalDuration s)
    (bHasValidOriginals s) (CapsuleComp s)
    (OriginalRadius s) (OriginalHalfHeight s) (OriginalScale s)
    (OriginalLineThickness s) (OriginalShapeColor s)
    (TargetRadius s) (TargetHalfHeight s) (TargetScale s)
    (TargetLineThickness s) (TargetShapeColor s)
    BlendIn BlendOut (OriginalCapsuleSettings s).

(** The alpha that the interpolation of lines 144-174 uses. *)
Definition TickAlpha (FrameDeltaTime : Q) (s : NotifyState) : Q :=
  ApplyEaseCurve (fst (fst (ComputeRawAlpha FrameDeltaTime (AdvanceElapsed FrameDeltaTime s)))).

(** Lines 144-174. *)
Definition WriteInterpolated (p : ptr) (RawAlpha : Q) : cmd := fun st =>
  let s := self st in
  (when (bModifyRadius cfg)
     (SetCapsuleRadius p (FMath.Lerp (OriginalRadius s) (TargetRadius s) RawAlpha)) ;;
   when (bModifyHalfHeight cfg)
     (SetCapsuleHalfHeight p
        (FMath.Lerp (OriginalHalfHeight s) (TargetHalfHeight s) RawAlpha)) ;;
   when (bModifyScale cfg)
     (SetRelativeScale3D p (FVector.Lerp (OriginalScale s) (TargetScale s) RawAlpha)) ;;
   when (bModifyLineThickness cfg)
     (SetLineThickness p
        (FMath.Lerp (OriginalLineThickness s) (TargetLineThickness s) RawAlpha)) ;;
   when (bModifyShapeColor cfg)
     (SetShapeColor p
        (ToFColor (FLinearColor.Lerp (OriginalShapeColor s) (TargetShapeColor s) RawAlpha)
                  true))) st.

Definition NotifyTick (FrameDeltaTime : Q) : cmd := fun st =>
  match bHasValidOriginals (self st), CapsuleComp (self st) with
  | true, Some p =>
      let s := AdvanceElapsed FrameDeltaTime (self st) in
      let '(RawAlpha, BlendIn, BlendOut) := ComputeRawAlpha FrameDeltaTime s in
      let RawAlpha := ApplyEaseCurve RawAlpha in
      (set_self (SetBlends BlendIn BlendOut s) ;;
       WriteInterpolated p RawAlpha) st
  | _, _ => st
  end.

(** *** NotifyEnd (lines 204-246) *)

(** Lines 218-237. *)
Definition RestoreOriginals (p : ptr) : cmd := fun st =>
  let s := self st in
  (when (bModifyRadius cfg) (SetCapsuleRadius p (OriginalRadius s)) ;;
   when (bModifyHalfHeight cfg) (SetCapsuleHalfHeight p (OriginalHalfHeight s)) ;;
   when (bModifyScale cfg) (SetRelativeScale3D p (OriginalScale s)) ;;
   when (bModifyLineThickness cfg) (SetLineThickness p (OriginalLineThickness s)) ;;
   when (bModifyShapeColor cfg)
     (SetShapeColor p (ToFColor (OriginalShapeColor s) true))) st.

(** Lines 242-245. *)
Definition ClearMembers (s : NotifyState) : NotifyState :=
  Build_NotifyState 0 0 false None
    (OriginalRadius s) (OriginalHalfHeight s) (OriginalScale s)
    (OriginalLineThickness s) (OriginalShapeColor s)
    (TargetRadius s) (TargetHalfHeight s) (TargetScale s)
    (TargetLineThickness s) (TargetShapeColor s)
    (BlendInAlpha s) (BlendOutAlpha s) (OriginalCapsuleSettings s).

Definition NotifyEnd : cmd := fun st =>
  match bHasValidOriginals (self st), CapsuleComp (self st) with
  | true, Some p =>
      (RestoreOriginals p ;;
       RestoreOriginalCollisionSettings ;;
       (fun st => set_self (ClearMembers (self st)) st)) st
  | _, _ => st
  end.

(** *** Call sequences issued by the host *)

Inductive Call : Type :=
  | CallBegin (MeshComp : option USkeletalMeshComponent) (TotalDuration : Q)
  | CallTick (FrameDeltaTime : Q)
  | CallEnd.

Definition exec (c : Call) : cmd :=
  match c with
  | CallBegin MeshComp TotalDuration => NotifyBegin MeshComp TotalDuration
  | CallTick FrameDeltaTime => NotifyTick FrameDeltaTime
  | CallEnd => NotifyEnd
  end.

Definition run (cs : list Call) : cmd := fun st => fold_left (fun st c => exec c st) cs st.

Definition Ticks (dts : list Q) : cmd := run (map CallTick dts).


(** *** Notions used by the statements *)

(** Lines 104 and 212: the guard under which Tick and End do anything. *)
Definition IsActive (s : NotifyState) : bool :=
  bHasValidOriginals s && match CapsuleComp s with Some _ => true | None => false end.

(** The modify flag that gates the setter calls of kind [k]; collision
    settings have none. *)
Definition modify_flag (k : Kind) : bool :=
  match k with
  | KRadius => bModifyRadius cfg
  | KHalfHeight => bModifyHalfHeight cfg
  | KScale => bModifyScale cfg
  | KLineThickness => bModifyLineThickness cfg
  | KShapeColor => bModifyShapeColor cfg
  | _ => true
  end.

(** The branch that a Tick with frame time [dt] takes from members [s]. *)
Definition PhaseAt (dt : Q) (s : NotifyState) : TickPhase :=
  SelectPhase (ElapsedTime s + dt) (NotifyTotalDuration s).

(** The raw alpha of line 134 for a Tick with frame time [dt] from [s]. *)
Definition RawAlphaAt (dt : Q) (s : NotifyState) : Q :=
  fst (fst (ComputeRawAlpha dt (AdvanceElapsed dt s))).

(** The blend-out evaluator as that Tick leaves it. *)
Definition BlendOutAfter (dt : Q) (s : NotifyState) : FAlphaBlend.t :=
  snd (ComputeRawAlpha dt (AdvanceElapsed dt s)).

(** No ease curve takes part: none is set, or it has no key. *)
Definition NoEaseCurve : Prop :=
  match EaseCurve cfg with
  | Some Curve => GetNumKeys Curve = 0%nat
  | None => True
  end.

(** The remap of lines 137-141 keeps alpha 1 at 1: no ease curve is set, or
    it has no key, or its value at 1 clamps to 1. *)
Definition EaseKeepsOne : Prop := ApplyEaseCurve 1 = 1.

(** One whole activation: Begin, the Ticks, End. *)
Definition Lifecycle (Mesh : USkeletalMeshComponent) (TotalDuration : Q) (dts : list Q)
    : list Call :=
  CallBegin (Some Mesh) TotalDuration :: map CallTick dts ++ [CallEnd].

(** A setter call through [p] that its modify flag allows. *)
Definition gated (p : ptr) (pe : ptr * Write) : Prop :=
  fst pe = p /\ modify_flag (kind (snd pe)) = true.

(** A setter call of one of the five attributes, through [p], with its
    modify flag set. *)
Definition gated_attribute (p : ptr) (pe : ptr * Write) : Prop :=
  gated p pe /\ is_attribute (kind (snd pe)) = true.

(** A collision setter call as [CapsuleCollisionSettings] asks for it. *)
Definition override_scoped (pe : ptr * Write) : Prop :=
  let cs := CapsuleCollisionSettings cfg in
  match snd pe with
  | WCollisionEnabled m =>
      bOverrideCollisionEnabled cs = true /\
      m = (if bForceQueryOnly cs then QueryOnly else CollisionEnabled cs)
  | WCollisionProfileName n =>
      bOverrideCollisionProfileName cs = true /\ n = CollisionProfileName cs
  | WGenerateOverlapEvents b =>
      bOverrideGenerateOverlapEvents cs = true /\ b = bGenerateOverlapEvents cs
  | WCollisionResponseToChannel ch r =>
      bOverrideCustomResponses cs = true /\ In (ch, r) (CustomResponses cs)
  | _ => True
  end.

(** The table that [SaveOriginalCollisionSettings] records for component [c]. *)
Definition response_table (c : UCapsuleComponent) : TMap.t :=
  map (fun Chan => (Chan, GetCollisionResponseToChannel c Chan)) (List.seq 0 ECC_MAX).

(** The last value that a table holds for a channel, if any. *)
Fixpoint last_response (m : TMap.t) (ch : ECollisionChannel) : option ECollisionResponse :=
  match m with
  | [] => None
  | (k, v) :: m' =>
      match last_response m' ch with
      | Some r => Some r
      | None => if Nat.eqb ch k then Some v else None
      end
  end.

(** The collision settings of [c] once [CapsuleCollisionSettings] is applied. *)
Definition overridden (c : UCapsuleComponent) (c' : UCapsuleComponent) : Prop :=
  let cs := CapsuleCollisionSettings cfg in
  GetCollisionEnabled c' =
    (if bOverrideCollisionEnabled cs
     then (if bForceQueryOnly cs then QueryOnly else CollisionEnabled cs)
     else GetCollisionEnabled c) /\
  GetCollisionProfileName c' =
    (if bOverrideCollisionProfileName cs then CollisionProfileName cs
     else GetCollisionProfileName c) /\
  GetGenerateOverlapEvents c' =
    (if bOverrideGenerateOverlapEvents cs then bGenerateOverlapEvents cs
     else GetGenerateOverlapEvents c) /\
  forall ch,
    GetCollisionResponseToChannel c' ch =
      (if bOverrideCustomResponses cs
       then match last_response (CustomResponses cs) ch with
            | Some r => r
            | None => GetCollisionResponseToChannel c ch
            end
       else GetCollisionResponseToChannel c ch).

(** The five gated setter calls that lines 68-87, 150-174 and 218-237 share. *)
Definition SetAttributes (p : ptr) (r h : Q) (v : FVector.t) (t : Q) (c : FColor.t) : cmd :=
  (when (bModifyRadius cfg) (SetCapsuleRadius p r) ;;
   when (bModifyHalfHeight cfg) (SetCapsuleHalfHeight p h) ;;
   when (bModifyScale cfg) (SetRelativeScale3D p v) ;;
   when (bModifyLineThickness cfg) (SetLineThickness p t) ;;
   when (bModifyShapeColor cfg) (SetShapeColor p c))%cmd.

(** A command that leaves the notify members alone. *)
Definition KeepsSelf (c : cmd) : Prop := forall st, self (c st) = self st.

(** The collision settings that [SaveOriginalCollisionSettings] records for [c]. *)
Definition Snapshot (c : UCapsuleComponent) : FCollisionSettings :=
  {| CollisionEnabled := GetCollisionEnabled c;
     bForceQueryOnly := false;
     bOverrideCollisionEnabled := true;
     CollisionProfileName := GetCollisionProfileName c;
     bOverrideCollisionProfileName := true;
     bGenerateOverlapEvents := GetGenerateOverlapEvents c;
     bOverrideGenerateOverlapEvents := true;
     CustomResponses := response_table c;
     bOverrideCustomResponses := true |}.

Definition WithSnapshot (o : FCollisionSettings) (s : NotifyState) : NotifyState :=
  Build_NotifyState (ElapsedTime s) (NotifyTotalDuration s) (bHasValidOriginals s)
    (CapsuleComp s)
    (OriginalRadius s) (OriginalHalfHeight s) (OriginalScale s)
    (OriginalLineThickness s) (OriginalShapeColor s)
    (TargetRadius s) (TargetHalfHeight s) (TargetScale s)
    (TargetLineThickness s) (TargetShapeColor s)
    (BlendInAlpha s) (BlendOutAlpha s) o.

(** The members after a Begin that found capsule [p], then reading as [c]. *)
Definition BeganMembers (p : ptr) (c : UCapsuleComponent) (TotalDuration : Q)
    (s : NotifyState) : NotifyState :=
  WithSnapshot (Snapshot c) (CaptureMembers p c (ResetMembers TotalDuration s)).

(** Line 66: the blend-in counts as instant. *)
Definition InstantBlendIn : bool := Qle_bool (BlendTimeIn cfg) KINDA_SMALL_NUMBER.

(** A setter call that Begin may issue on capsule [p]. *)
Definition begin_scoped (p : ptr) (pe : ptr * Write) : Prop :=
  gated p pe /\
  (is_attribute (kind (snd pe)) = true -> InstantBlendIn = true) /\
  override_scoped pe.

(** Members that differ from [s] in the clock and the two evaluators only,
    which is all that a Tick assigns. *)
Definition Retimed (e : Q) (BlendIn BlendOut : FAlphaBlend.t) (s : NotifyState)
    : NotifyState :=
  Build_NotifyState e (NotifyTotalDuration s) (bHasValidOriginals s) (CapsuleComp s)
    (OriginalRadius s) (OriginalHalfHeight s) (OriginalScale s)
    (OriginalLineThickness s) (OriginalShapeColor s)
    (TargetRadius s) (TargetHalfHeight s) (TargetScale s)
    (TargetLineThickness s) (TargetShapeColor s)
    BlendIn BlendOut (OriginalCapsuleSettings s).

(** The members after a Tick with frame time [dt] on an active notify. *)
Definition TickedMembers (dt : Q) (s : NotifyState) : NotifyState :=
  let s' := AdvanceElapsed dt s in
  let r := ComputeRawAlpha dt s' in
  SetBlends (snd (fst r)) (snd r) s'.

(** A host call other than Begin. *)
Definition not_begin (c : Call) : bool :=
  match c with
  | CallBegin _ _ => false
  | _ => true
  end.

(** The setter calls of [RestoreOriginalCollisionSettings] for settings [o]. *)
Definition restore_calls (p : ptr) (o : FCollisionSettings) : list (ptr * Write) :=
  [(p, WCollisionEnabled (CollisionEnabled o));
   (p, WCollisionProfileName (CollisionProfileName o));
   (p, WGenerateOverlapEvents (bGenerateOverlapEvents o))]
  ++ map (fun kv => (p, WCollisionResponseToChannel (fst kv) (snd kv))) (CustomResponses o).

(** [s'] is [s] some non-negative frame times later: the same evaluators,
    no less advanced. *)
Definition Advances (s s' : NotifyState) : Prop :=
  NotifyTotalDuration s' = NotifyTotalDuration s /\
  ElapsedTime s <= ElapsedTime s' /\
  FAlphaBlend.BlendTime (BlendInAlpha s') = FAlphaBlend.BlendTime (BlendInAlpha s) /\
  FAlphaBlend.BlendOption (BlendInAlpha s') = FAlphaBlend.BlendOption (BlendInAlpha s) /\
  FAlphaBlend.Progress (BlendInAlpha s) <= FAlphaBlend.Progress (BlendInAlpha s') /\
  FAlphaBlend.BlendTime (BlendOutAlpha s') = FAlphaBlend.BlendTime (BlendOutAlpha s) /\
  FAlphaBlend.BlendOption (BlendOutAlpha s') = FAlphaBlend.BlendOption (BlendOutAlpha s) /\
  FAlphaBlend.Progress (BlendOutAlpha s) <= FAlphaBlend.Progress (BlendOutAlpha s').

(** What the members satisfy throughout the scenario "total 2, blend-in 1/2,
    blend-out 1/2, linear": the blend-in evaluator has advanced by the whole
    elapsed time while that is below 1/2, and the blend-out evaluator by at
    least the time elapsed beyond 3/2 and by nothing before. *)
Definition ScenarioInv (s : NotifyState) : Prop :=
  NotifyTotalDuration s == 2 /\
  0 <= ElapsedTime s /\
  FAlphaBlend.BlendTime (BlendInAlpha s) == 1 # 2 /\
  FAlphaBlend.BlendOption (BlendInAlpha s) = Linear /\
  FAlphaBlend.BlendTime (BlendOutAlpha s) == 1 # 2 /\
  FAlphaBlend.BlendOption (BlendOutAlpha s) = Linear /\
  (ElapsedTime s < 1 # 2 -> FAlphaBlend.Progress (BlendInAlpha s) == ElapsedTime s) /\
  0 <= FAlphaBlend.Progress (BlendOutAlpha s) /\
  ElapsedTime s - (3 # 2) <= FAlphaBlend.Progress (BlendOutAlpha s) /\
  (ElapsedTime s <= 3 # 2 -> FAlphaBlend.Progress (BlendOutAlpha s) == 0).

(** The same once a Tick has landed exactly on elapsed 3/2: from then on the
    blend-out evaluator has advanced by exactly the time beyond 3/2. *)
Definition ScenarioOut (s : NotifyState) : Prop :=
  ScenarioInv s /\
  3 # 2 <= ElapsedTime s /\
  FAlphaBlend.Progress (BlendOutAlpha s) == ElapsedTime s - (3 # 2).


(** ** Arithmetic of comparisons, clamping and interpolation *)

Lemma Qlt_bool_true (x y : Q) : Qlt_bool x y = true <-> x < y.
Proof.
  unfold Qlt_bool. rewrite negb_true_iff. split; intro H.
  - apply Qnot_le_lt. intro Hle. apply Qle_bool_iff in Hle. congruence.
  - destruct (Qle_bool y x) eqn:E; auto. apply Qle_bool_iff in E. lra.
Qed.

Lemma Qlt_bool_false (x y : Q) : Qlt_bool x y = false <-> y <= x.
Proof.
  unfold Qlt_bool. rewrite negb_false_iff. apply Qle_bool_iff.
Qed.

Lemma Qle_bool_false (x y : Q) : Qle_bool x y = false <-> y < x.
Proof.
  rewrite <- Qlt_bool_true. unfold Qlt_bool. now rewrite negb_true_iff.
Qed.

(** Turn every boolean comparison in sight into its proposition. *)
Ltac qbool :=
  repeat match goal with
  | H : Qlt_bool _ _ = true |- _ => apply Qlt_bool_true in H
  | H : Qlt_bool _ _ = false |- _ => apply Qlt_bool_false in H
  | H : Qle_bool _ _ = true |- _ => apply Qle_bool_iff in H
  | H : Qle_bool _ _ = false |- _ => apply Qle_bool_false in H
  | H : _ && _ = true |- _ => apply andb_true_iff in H; destruct H
  | H : _ && _ = false |- _ => apply andb_false_iff in H
  end.

Lemma Clamp_bounds (x lo hi : Q) : lo <= hi -> lo <= FMath.Clamp x lo hi <= hi.
Proof.
  intro H. unfold FMath.Clamp.
  destruct (Qlt_bool x lo) eqn:E1; [qbool; lra|].
  destruct (Qlt_bool x hi) eqn:E2; qbool; lra.
Qed.

Lemma Clamp_id (x lo hi : Q) : lo <= x <= hi -> FMath.Clamp x lo hi == x.
Proof.
  intro H. unfold FMath.Clamp.
  destruct (Qlt_bool x lo) eqn:E1; [qbool; lra|].
  destruct (Qlt_bool x hi) eqn:E2; qbool; lra.
Qed.

Lemma Clamp_mono (x y lo hi : Q) :
  lo <= hi -> x <= y -> FMath.Clamp x lo hi <= FMath.Clamp y lo hi.
Proof.
  intros H Hxy. unfold FMath.Clamp.
  destruct (Qlt_bool x lo) eqn:E1; destruct (Qlt_bool y lo) eqn:E2;
    destruct (Qlt_bool x hi) eqn:E3; destruct (Qlt_bool y hi) eqn:E4; qbool; lra.
Qed.

(** In exact arithmetic the interpolation at alpha 1 is the target.  In
    single precision it is the target up to the rounding of [A + (B - A)]
    only; see [Single.Lerp]. *)
Lemma Lerp_one (a b : Q) : FMath.Lerp a b 1 == b.
Proof. unfold FMath.Lerp. ring. Qed.

(** ** Setter logs *)

Lemma replay_app (l1 l2 : list (ptr * Write)) (w : ptr -> UCapsuleComponent) :
  replay (l1 ++ l2) w = replay l2 (replay l1 w).
Proof. unfold replay. apply fold_left_app. Qed.

Lemma same_on_refl (k : Kind) (c : UCapsuleComponent) : same_on k c c.
Proof. destruct k; simpl; auto. Qed.

Lemma same_on_trans (k : Kind) (a b c : UCapsuleComponent) :
  same_on k a b -> same_on k b c -> same_on k a c.
Proof.
  destruct k; simpl; intros H1 H2; congruence.
Qed.

Lemma apply_write_other (k : Kind) (e : Write) (c : UCapsuleComponent) :
  kind e <> k -> same_on k (apply_write e c) c.
Proof.
  destruct k, e; simpl; intro H; try reflexivity; try (now elim H); auto.
Qed.

(** A log without calls of kind [k] leaves that accessor as it was. *)
Lemma replay_same_on (k : Kind) (l : list (ptr * Write)) :
  forall w q,
    Forall (fun pe => kind (snd pe) <> k) l ->
    same_on k (replay l w q) (w q).
Proof.
  induction l as [|pe l IH]; intros w q Hl.
  - apply same_on_refl.
  - inversion Hl as [|? ? Hpe Hl']; subst. simpl.
    apply same_on_trans with (replay_step w pe q).
    + apply IH; assumption.
    + unfold replay_step. destruct (Nat.eqb q (fst pe)) eqn:E.
      * apply Nat.eqb_eq in E. subst q. now apply apply_write_other.
      * apply same_on_refl.
Qed.

Lemma issues_nil (c : cmd) (st : State) :
  writes (c st) = writes st -> world (c st) = world st -> issues c st [].
Proof. intros H1 H2. split; [now rewrite app_nil_r | exact H2]. Qed.

Lemma issues_seq (a b : cmd) (st : State) (l1 l2 : list (ptr * Write)) :
  issues a st l1 -> issues b (a st) l2 -> issues (seq a b) st (l1 ++ l2).
Proof.
  intros [Ha1 Ha2] [Hb1 Hb2]. unfold seq. split.
  - now rewrite Hb1, Ha1, app_assoc.
  - now rewrite Hb2, Ha2, replay_app.
Qed.

Lemma Tracks_skip (P : ptr * Write -> Prop) : Tracks P skip.
Proof. intro st. exists []. split; [now apply issues_nil | constructor]. Qed.

Lemma Tracks_write (P : ptr * Write -> Prop) (p : ptr) (e : Write) :
  P (p, e) -> Tracks P (write p e).
Proof.
  intros HP st. exists [(p, e)]. split; [split; reflexivity | now constructor].
Qed.

Lemma Tracks_seq (P : ptr * Write -> Prop) (a b : cmd) :
  Tracks P a -> Tracks P b -> Tracks P (seq a b).
Proof.
  intros Ha Hb st. destruct (Ha st) as (l1 & I1 & F1). destruct (Hb (a st)) as (l2 & I2 & F2).
  exists (l1 ++ l2). split; [now apply issues_seq | now apply Forall_app].
Qed.

Lemma Tracks_when (P : ptr * Write -> Prop) (b : bool) (c : cmd) :
  (b = true -> Tracks P c) -> Tracks P (when b c).
Proof. destruct b; simpl; intro H; [now apply H | apply Tracks_skip]. Qed.

Lemma Tracks_weaken (P P' : ptr * Write -> Prop) (c : cmd) :
  (forall pe, P pe -> P' pe) -> Tracks P c -> Tracks P' c.
Proof.
  intros HPP' H st. destruct (H st) as (l & I & F). exists l. split; [exact I|].
  eapply Forall_impl; eauto.
Qed.

Lemma Tracks_SetResponses (P : ptr * Write -> Prop) (p : ptr) (m : TMap.t) :
  (forall k v, In (k, v) m -> P (p, WCollisionResponseToChannel k v)) ->
  Tracks P (SetResponses p m).
Proof.
  unfold SetResponses. induction m as [|[k v] m IH]; intro H.
  - apply Tracks_skip.
  - simpl. change (Tracks P (seq (SetCollisionResponseToChannel p k v)
      (fun st => fold_left
         (fun st kv => SetCollisionResponseToChannel p (fst kv) (snd kv) st) m st))).
    apply Tracks_seq.
    + apply Tracks_write. apply H. now left.
    + apply IH. intros k' v' Hin. apply H. now right.
Qed.

(** ** What each member function writes *)

Ltac tracks :=
  unfold SetCapsuleRadius, SetCapsuleHalfHeight, SetRelativeScale3D, SetLineThickness,
    SetShapeColor, SetCollisionEnabled, SetCollisionProfileName, SetGenerateOverlapEvents;
  repeat match goal with
  | |- Tracks _ (seq _ _) => apply Tracks_seq
  | |- Tracks _ skip => apply Tracks_skip
  | |- Tracks _ (when _ _) => apply Tracks_when; intro
  | |- Tracks _ (write _ _) => apply Tracks_write
  end.

(** Reduce a command that starts by reading the members to one that does not. *)
Ltac tracks_read :=
  let st := fresh "st" in
  let s := fresh "s" in
  intro st; unfold TracksAt, issues; cbv beta zeta;
  generalize (self st); intro s; revert st;
  match goal with
  | |- forall st, exists l, (writes (?c st) = _ /\ _) /\ Forall ?P l =>
      change (Tracks P c)
  end.

Lemma Tracks_SnapToTargets (p : ptr) : Tracks (gated_attribute p) (SnapToTargets p).
Proof.
  unfold SnapToTargets. tracks_read.
  tracks; unfold gated_attribute, gated; simpl; auto.
Qed.

Lemma Tracks_WriteInterpolated (p : ptr) (a : Q) :
  Tracks (gated_attribute p) (WriteInterpolated p a).
Proof.
  unfold WriteInterpolated. tracks_read.
  tracks; unfold gated_attribute, gated; simpl; auto.
Qed.

Lemma Tracks_RestoreOriginals (p : ptr) : Tracks (gated_attribute p) (RestoreOriginals p).
Proof.
  unfold RestoreOriginals. tracks_read.
  tracks; unfold gated_attribute, gated; simpl; auto.
Qed.

Lemma Tracks_SaveOriginalCollisionSettings :
  Tracks (fun _ => False) SaveOriginalCollisionSettings.
Proof.
  intro st. exists []. split; [|constructor].
  unfold issues, SaveOriginalCollisionSettings.
  destruct (CapsuleComp (self st)); simpl; now rewrite app_nil_r.
Qed.

Lemma Tracks_ApplyCollisionSettings (st : State) (p : ptr) :
  CapsuleComp (self st) = Some p ->
  TracksAt (fun pe => fst pe = p /\ is_attribute (kind (snd pe)) = false /\
                      override_scoped pe)
           ApplyCollisionSettings st.
Proof.
  intro Hp. unfold TracksAt, issues, ApplyCollisionSettings. rewrite Hp. cbv zeta.
  clear Hp. revert st.
  match goal with |- forall st, exists l, (writes (?c st) = _ /\ _) /\ Forall ?P l =>
    change (Tracks P c) end.
  tracks; unfold override_scoped; simpl; auto.
  apply Tracks_SetResponses. intros k v Hin. simpl; auto.
Qed.

Lemma Tracks_RestoreOriginalCollisionSettings (st : State) (p : ptr) :
  CapsuleComp (self st) = Some p ->
  TracksAt (fun pe => fst pe = p /\ is_attribute (kind (snd pe)) = false)
           RestoreOriginalCollisionSettings st.
Proof.
  intro Hp. unfold TracksAt, issues, RestoreOriginalCollisionSettings. rewrite Hp. cbv zeta.
  generalize (OriginalCapsuleSettings (self st)). intro o. clear Hp. revert st.
  match goal with |- forall st, exists l, (writes (?c st) = _ /\ _) /\ Forall ?P l =>
    change (Tracks P c) end.
  tracks; simpl; auto.
  apply Tracks_SetResponses. intros k v Hin. simpl; auto.
Qed.

Lemma TracksAt_weaken (P P' : ptr * Write -> Prop) (c : cmd) (st : State) :
  (forall pe, P pe -> P' pe) -> TracksAt P c st -> TracksAt P' c st.
Proof.
  intros HPP' (l & I & F). exists l. split; [exact I|]. eapply Forall_impl; eauto.
Qed.

Lemma TracksAt_seq (P : ptr * Write -> Prop) (a b : cmd) (st : State) :
  TracksAt P a st -> TracksAt P b (a st) -> TracksAt P (seq a b) st.
Proof.
  intros (l1 & I1 & F1) (l2 & I2 & F2).
  exists (l1 ++ l2). split; [now apply issues_seq | now apply Forall_app].
Qed.

Lemma TracksAt_none (P : ptr * Write -> Prop) (c : cmd) (st : State) :
  writes (c st) = writes st -> world (c st) = world st -> TracksAt P c st.
Proof. intros H1 H2. exists []. split; [now apply issues_nil | constructor]. Qed.

(** What a command does not write, it does not change. *)
Lemma TracksAt_same_on (P : ptr * Write -> Prop) (c : cmd) (st : State) (k : Kind) :
  TracksAt P c st ->
  (forall pe, P pe -> kind (snd pe) <> k) ->
  forall q, same_on k (world (c st) q) (world st q).
Proof.
  intros (l & [_ Hw] & F) HP q. rewrite Hw. apply replay_same_on.
  eapply Forall_impl; [|exact F]. auto.
Qed.

(** *** Commands that keep the members *)

Lemma KeepsSelf_skip : KeepsSelf skip.
Proof. intro st. reflexivity. Qed.

Lemma KeepsSelf_write (p : ptr) (e : Write) : KeepsSelf (write p e).
Proof. intro st. reflexivity. Qed.

Lemma KeepsSelf_seq (a b : cmd) : KeepsSelf a -> KeepsSelf b -> KeepsSelf (seq a b).
Proof. intros Ha Hb st. unfold seq. now rewrite Hb, Ha. Qed.

Lemma KeepsSelf_when (b : bool) (c : cmd) : KeepsSelf c -> KeepsSelf (when b c).
Proof. destruct b; simpl; auto using KeepsSelf_skip. Qed.

Lemma KeepsSelf_SetResponses (p : ptr) (m : TMap.t) : KeepsSelf (SetResponses p m).
Proof.
  unfold SetResponses. induction m as [|[k v] m IH]; intro st; [reflexivity|].
  simpl. now rewrite IH.
Qed.

Ltac keeps :=
  unfold SetCapsuleRadius, SetCapsuleHalfHeight, SetRelativeScale3D, SetLineThickness,
    SetShapeColor, SetCollisionEnabled, SetCollisionProfileName, SetGenerateOverlapEvents;
  repeat match goal with
  | |- KeepsSelf (seq _ _) => apply KeepsSelf_seq
  | |- KeepsSelf skip => apply KeepsSelf_skip
  | |- KeepsSelf (when _ _) => apply KeepsSelf_when
  | |- KeepsSelf (write _ _) => apply KeepsSelf_write
  | |- KeepsSelf (SetResponses _ _) => apply KeepsSelf_SetResponses
  end.

Lemma KeepsSelf_SetAttributes p r h v t c : KeepsSelf (SetAttributes p r h v t c).
Proof. unfold SetAttributes. keeps. Qed.

(** The five attributes after the gated setter calls. *)
Lemma SetAttributes_values p r h v t c st :
  let c' := world (SetAttributes p r h v t c st) p in
  GetUnscaledCapsuleRadius c' =
    (if bModifyRadius cfg then r else GetUnscaledCapsuleRadius (world st p)) /\
  GetUnscaledCapsuleHalfHeight c' =
    (if bModifyHalfHeight cfg then h else GetUnscaledCapsuleHalfHeight (world st p)) /\
  GetRelativeScale3D c' =
    (if bModifyScale cfg then v else GetRelativeScale3D (world st p)) /\
  LineThickness c' =
    (if bModifyLineThickness cfg then t else LineThickness (world st p)) /\
  ShapeColor c' =
    (if bModifyShapeColor cfg then c else ShapeColor (world st p)).
Proof.
  unfold SetAttributes, seq, when, skip, SetCapsuleRadius, SetCapsuleHalfHeight,
    SetRelativeScale3D, SetLineThickness, SetShapeColor, write.
  destruct (bModifyRadius cfg), (bModifyHalfHeight cfg), (bModifyScale cfg),
    (bModifyLineThickness cfg), (bModifyShapeColor cfg);
    simpl; rewrite ?Nat.eqb_refl; simpl; repeat split; reflexivity.
Qed.

Lemma SnapToTargets_eq p st :
  SnapToTargets p st =
  SetAttributes p (TargetRadius (self st)) (TargetHalfHeight (self st))
    (TargetScale (self st)) (TargetLineThickness (self st))
    (ToFColor (TargetShapeColor (self st)) true) st.
Proof. reflexivity. Qed.

Lemma WriteInterpolated_eq p a st :
  WriteInterpolated p a st =
  SetAttributes p
    (FMath.Lerp (OriginalRadius (self st)) (TargetRadius (self st)) a)
    (FMath.Lerp (OriginalHalfHeight (self st)) (TargetHalfHeight (self st)) a)
    (FVector.Lerp (OriginalScale (self st)) (TargetScale (self st)) a)
    (FMath.Lerp (OriginalLineThickness (self st)) (TargetLineThickness (self st)) a)
    (ToFColor
       (FLinearColor.Lerp (OriginalShapeColor (self st)) (TargetShapeColor (self st)) a)
       true) st.
Proof. reflexivity. Qed.

Lemma RestoreOriginals_eq p st :
  RestoreOriginals p st =
  SetAttributes p (OriginalRadius (self st)) (OriginalHalfHeight (self st))
    (OriginalScale (self st)) (OriginalLineThickness (self st))
    (ToFColor (OriginalShapeColor (self st)) true) st.
Proof. reflexivity. Qed.

Lemma KeepsSelf_SnapToTargets p : KeepsSelf (SnapToTargets p).
Proof. intro st. rewrite SnapToTargets_eq. apply KeepsSelf_SetAttributes. Qed.

Lemma KeepsSelf_WriteInterpolated p a : KeepsSelf (WriteInterpolated p a).
Proof. intro st. rewrite WriteInterpolated_eq. apply KeepsSelf_SetAttributes. Qed.

Lemma KeepsSelf_RestoreOriginals p : KeepsSelf (RestoreOriginals p).
Proof. intro st. rewrite RestoreOriginals_eq. apply KeepsSelf_SetAttributes. Qed.

Lemma KeepsSelf_ApplyCollisionSettings : KeepsSelf ApplyCollisionSettings.
Proof.
  intro st. unfold ApplyCollisionSettings.
  destruct (CapsuleComp (self st)); [|reflexivity]. cbv zeta.
  match goal with |- self (?c st) = _ => revert st; change (KeepsSelf c) end.
  keeps.
Qed.

Lemma KeepsSelf_RestoreOriginalCollisionSettings :
  KeepsSelf RestoreOriginalCollisionSettings.
Proof.
  intro st. unfold RestoreOriginalCollisionSettings.
  destruct (CapsuleComp (self st)); [|reflexivity]. cbv zeta.
  generalize (OriginalCapsuleSettings (self st)). intro o.
  match goal with |- self (?c st) = _ => revert st; change (KeepsSelf c) end.
  keeps.
Qed.

(** *** The collision sub-protocol *)

(** The table in the loop of lines 267-273 holds each channel once, in order. *)
Lemma Add_fresh (k : ECollisionChannel) (v : ECollisionResponse) (m : TMap.t) :
  Forall (fun kv => fst kv <> k) m -> TMap.Add k v m = m ++ [(k, v)].
Proof.
  induction m as [|[k' v'] m IH]; intro H; [reflexivity|].
  inversion H as [|? ? Hk Hm]; subst. simpl in *.
  destruct (Nat.eqb k' k) eqn:E.
  - apply Nat.eqb_eq in E. contradiction.
  - now rewrite IH.
Qed.

Lemma save_loop (f : ECollisionChannel -> ECollisionResponse) (n : nat) :
  forall a m,
    Forall (fun kv => (fst kv < a)%nat) m ->
    fold_left (fun m Chan => TMap.Add Chan (f Chan) m) (List.seq a n) m =
    m ++ map (fun Chan => (Chan, f Chan)) (List.seq a n).
Proof.
  induction n as [|n IH]; intros a m Hm; simpl.
  - now rewrite app_nil_r.
  - rewrite Add_fresh.
    + rewrite IH.
      * now rewrite <- app_assoc.
      * apply Forall_app. split.
        -- eapply Forall_impl; [|exact Hm]. simpl. intros; lia.
        -- constructor; [simpl; lia | constructor].
    + eapply Forall_impl; [|exact Hm]. unfold ECollisionChannel. simpl. intros; lia.
Qed.

Lemma save_table (c : UCapsuleComponent) :
  fold_left (fun m Chan => TMap.Add Chan (GetCollisionResponseToChannel c Chan) m)
    (List.seq 0 ECC_MAX) TMap.Empty = response_table c.
Proof. unfold response_table. now rewrite save_loop by constructor. Qed.

Lemma last_response_table_seq (f : ECollisionChannel -> ECollisionResponse) (n : nat) :
  forall a ch,
    last_response (map (fun Chan => (Chan, f Chan)) (List.seq a n)) ch =
    if (a <=? ch)%nat && (ch <? a + n)%nat then Some (f ch) else None.
Proof.
  induction n as [|n IH]; intros a ch; simpl.
  - destruct (a <=? ch)%nat eqn:E1; simpl; [|reflexivity].
    destruct (ch <? a + 0)%nat eqn:E2; [|reflexivity].
    apply Nat.leb_le in E1. apply Nat.ltb_lt in E2. lia.
  - rewrite IH.
    destruct (S a <=? ch)%nat eqn:E1; destruct (ch <? S a + n)%nat eqn:E2;
      destruct (a <=? ch)%nat eqn:E3; destruct (ch <? a + S n)%nat eqn:E4;
      destruct (Nat.eqb ch a) eqn:E5; simpl; try reflexivity;
      repeat match goal with
      | H : (_ <=? _)%nat = true |- _ => apply Nat.leb_le in H
      | H : (_ <=? _)%nat = false |- _ => apply Nat.leb_gt in H
      | H : (_ <? _)%nat = true |- _ => apply Nat.ltb_lt in H
      | H : (_ <? _)%nat = false |- _ => apply Nat.ltb_ge in H
      | H : Nat.eqb _ _ = true |- _ => apply Nat.eqb_eq in H
      | H : Nat.eqb _ _ = false |- _ => apply Nat.eqb_neq in H
      end; try lia.
    subst. reflexivity.
Qed.

(** The snapshot table gives back, for each channel below [ECC_MAX], the
    response of the component it was read from. *)
Lemma last_response_table (c : UCapsuleComponent) (ch : ECollisionChannel) :
  (ch < ECC_MAX)%nat ->
  last_response (response_table c) ch = Some (GetCollisionResponseToChannel c ch).
Proof.
  intro H. unfold response_table. rewrite last_response_table_seq.
  replace (0 <=? ch)%nat with true by (symmetry; apply Nat.leb_le; lia).
  replace (ch <? 0 + ECC_MAX)%nat with true by (symmetry; apply Nat.ltb_lt; lia).
  reflexivity.
Qed.

Lemma In_response_table (c : UCapsuleComponent) (ch : ECollisionChannel) :
  (ch < ECC_MAX)%nat -> In (ch, GetCollisionResponseToChannel c ch) (response_table c).
Proof.
  intro H. unfold response_table.
  apply (in_map (fun Chan => (Chan, GetCollisionResponseToChannel c Chan))).
  apply in_seq. lia.
Qed.

Lemma response_table_ext (c c' : UCapsuleComponent) :
  same_on KResponse c c' -> response_table c = response_table c'.
Proof.
  intro H. unfold response_table. apply map_ext. intro ch. now rewrite (H ch).
Qed.

Lemma world_write_same (p : ptr) (e : Write) (st : State) :
  world (write p e st) p = apply_write e (world st p).
Proof. unfold write. simpl. now rewrite Nat.eqb_refl. Qed.

(** The component behind [p] after the loop of lines 289-292 / 320-323. *)
Lemma SetResponses_values (p : ptr) (m : TMap.t) :
  forall st,
    let c := world st p in
    let c' := world (SetResponses p m st) p in
    (forall k, k <> KResponse -> same_on k c' c) /\
    (forall ch,
       GetCollisionResponseToChannel c' ch =
       match last_response m ch with
       | Some r => r
       | None => GetCollisionResponseToChannel c ch
       end).
Proof.
  induction m as [|[k v] m IH]; intro st; cbv zeta.
  - split; [intros; apply same_on_refl | reflexivity].
  - unfold SetResponses in *. simpl fold_left.
    destruct (IH (SetCollisionResponseToChannel p k v st)) as [IH1 IH2].
    cbv zeta in IH1, IH2. split.
    + intros k0 Hk0. eapply same_on_trans; [apply IH1; exact Hk0|].
      unfold SetCollisionResponseToChannel. rewrite world_write_same.
      apply apply_write_other. simpl. congruence.
    + intro ch. rewrite IH2. simpl last_response.
      destruct (last_response m ch); [reflexivity|].
      unfold SetCollisionResponseToChannel. rewrite world_write_same. simpl.
      now destruct (Nat.eqb ch k).
Qed.

(** The collision settings after [ApplyCollisionSettings]. *)
Lemma ApplyCollisionSettings_values (st : State) (p : ptr) :
  CapsuleComp (self st) = Some p ->
  overridden (world st p) (world (ApplyCollisionSettings st) p).
Proof.
  intro Hp. unfold ApplyCollisionSettings. rewrite Hp. cbv zeta.
  unfold overridden, seq, when, skip, SetCollisionEnabled, SetCollisionProfileName,
    SetGenerateOverlapEvents. cbv zeta.
  set (cs := CapsuleCollisionSettings cfg).
  destruct (bOverrideCustomResponses cs).
  - match goal with |- context [SetResponses p ?m ?s] =>
      destruct (SetResponses_values p m s) as [H1 H2] end.
    cbv zeta in H1, H2.
    pose proof (H1 KCollisionEnabled ltac:(discriminate)) as He.
    pose proof (H1 KProfileName ltac:(discriminate)) as Hn.
    pose proof (H1 KOverlapEvents ltac:(discriminate)) as Ho.
    simpl in He, Hn, Ho. rewrite He, Hn, Ho.
    repeat split.
    + destruct (bOverrideCollisionEnabled cs), (bOverrideCollisionProfileName cs),
        (bOverrideGenerateOverlapEvents cs); simpl; rewrite ?Nat.eqb_refl; reflexivity.
    + destruct (bOverrideCollisionEnabled cs), (bOverrideCollisionProfileName cs),
        (bOverrideGenerateOverlapEvents cs); simpl; rewrite ?Nat.eqb_refl; reflexivity.
    + destruct (bOverrideCollisionEnabled cs), (bOverrideCollisionProfileName cs),
        (bOverrideGenerateOverlapEvents cs); simpl; rewrite ?Nat.eqb_refl; reflexivity.
    + intro ch. rewrite H2. destruct (last_response (CustomResponses cs) ch); [reflexivity|].
      destruct (bOverrideCollisionEnabled cs), (bOverrideCollisionProfileName cs),
        (bOverrideGenerateOverlapEvents cs); simpl; rewrite ?Nat.eqb_refl; reflexivity.
  - destruct (bOverrideCollisionEnabled cs), (bOverrideCollisionProfileName cs),
      (bOverrideGenerateOverlapEvents cs); simpl; rewrite ?Nat.eqb_refl;
      repeat split; reflexivity.
Qed.

(** The collision settings after [RestoreOriginalCollisionSettings]. *)
Lemma RestoreOriginalCollisionSettings_values (st : State) (p : ptr) :
  CapsuleComp (self st) = Some p ->
  let o := OriginalCapsuleSettings (self st) in
  let c' := world (RestoreOriginalCollisionSettings st) p in
  GetCollisionEnabled c' = CollisionEnabled o /\
  GetCollisionProfileName c' = CollisionProfileName o /\
  GetGenerateOverlapEvents c' = bGenerateOverlapEvents o /\
  forall ch,
    GetCollisionResponseToChannel c' ch =
    match last_response (CustomResponses o) ch with
    | Some r => r
    | None => GetCollisionResponseToChannel (world st p) ch
    end.
Proof.
  intro Hp. unfold RestoreOriginalCollisionSettings. rewrite Hp. cbv zeta.
  unfold seq, SetCollisionEnabled, SetCollisionProfileName, SetGenerateOverlapEvents.
  match goal with |- context [SetResponses p ?m ?s] =>
    destruct (SetResponses_values p m s) as [H1 H2] end.
  cbv zeta in H1, H2.
  pose proof (H1 KCollisionEnabled ltac:(discriminate)) as He.
  pose proof (H1 KProfileName ltac:(discriminate)) as Hn.
  pose proof (H1 KOverlapEvents ltac:(discriminate)) as Ho.
  simpl in He, Hn, Ho. rewrite He, Hn, Ho.
  simpl. rewrite ?Nat.eqb_refl. simpl. repeat split.
  intro ch. rewrite H2. simpl. rewrite ?Nat.eqb_refl. reflexivity.
Qed.

(** *** NotifyBegin *)

Lemma SaveOriginalCollisionSettings_self (st : State) (p : ptr) :
  CapsuleComp (self st) = Some p ->
  self (SaveOriginalCollisionSettings st) = WithSnapshot (Snapshot (world st p)) (self st).
Proof.
  intro Hp. unfold SaveOriginalCollisionSettings. rewrite Hp. cbv zeta.
  unfold set_self. cbn [self]. rewrite save_table.
  unfold WithSnapshot, Snapshot. rewrite Hp. reflexivity.
Qed.

Lemma SaveOriginalCollisionSettings_world (st : State) :
  world (SaveOriginalCollisionSettings st) = world st.
Proof.
  unfold SaveOriginalCollisionSettings. now destruct (CapsuleComp (self st)).
Qed.

Lemma Snapshot_ext (c c' : UCapsuleComponent) :
  (forall k, is_attribute k = false -> same_on k c c') -> Snapshot c = Snapshot c'.
Proof.
  intro H. unfold Snapshot.
  pose proof (H KCollisionEnabled eq_refl) as He.
  pose proof (H KProfileName eq_refl) as Hn.
  pose proof (H KOverlapEvents eq_refl) as Ho.
  pose proof (H KResponse eq_refl) as Hr.
  simpl in He, Hn, Ho. rewrite He, Hn, Ho, (response_table_ext c c' Hr). reflexivity.
Qed.

Lemma overridden_ext (c0 c c' : UCapsuleComponent) :
  (forall k, is_attribute k = false -> same_on k c c0) ->
  overridden c c' -> overridden c0 c'.
Proof.
  intros H (He & Hn & Ho & Hr).
  pose proof (H KCollisionEnabled eq_refl) as He'.
  pose proof (H KProfileName eq_refl) as Hn'.
  pose proof (H KOverlapEvents eq_refl) as Ho'.
  pose proof (H KResponse eq_refl) as Hr'.
  simpl in He', Hn', Ho', Hr'. unfold overridden.
  rewrite <- He', <- Hn', <- Ho'. repeat split; try assumption.
  intro ch. rewrite (Hr ch), (Hr' ch). reflexivity.
Qed.

Lemma is_attribute_kind_neq (k k' : Kind) :
  is_attribute k = true -> is_attribute k' = false -> k <> k'.
Proof. intros H H' E. subst. congruence. Qed.

(** A Begin that finds no capsule only resets four members. *)
Lemma NotifyBegin_failed (MeshComp : option USkeletalMeshComponent) (T : Q) (st : State) :
  match MeshComp with
  | None => True
  | Some Mesh => FindCapsuleComponent Mesh = None
  end ->
  NotifyBegin MeshComp T st = set_self (ResetMembers T (self st)) st.
Proof.
  unfold NotifyBegin. destruct MeshComp as [Mesh|]; [|reflexivity].
  intro H. now rewrite H.
Qed.

(** The snap of line 66, or nothing. *)
Lemma snap_values (p : ptr) (st : State) :
  let st' := when InstantBlendIn (SnapToTargets p) st in
  let c := world st p in
  let c' := world st' p in
  self st' = self st /\
  TracksAt (fun pe => gated_attribute p pe /\ InstantBlendIn = true)
    (when InstantBlendIn (SnapToTargets p)) st /\
  GetUnscaledCapsuleRadius c' =
    (if InstantBlendIn && bModifyRadius cfg then TargetRadius (self st)
     else GetUnscaledCapsuleRadius c) /\
  GetUnscaledCapsuleHalfHeight c' =
    (if InstantBlendIn && bModifyHalfHeight cfg then TargetHalfHeight (self st)
     else GetUnscaledCapsuleHalfHeight c) /\
  GetRelativeScale3D c' =
    (if InstantBlendIn && bModifyScale cfg then TargetScale (self st)
     else GetRelativeScale3D c) /\
  LineThickness c' =
    (if InstantBlendIn && bModifyLineThickness cfg then TargetLineThickness (self st)
     else LineThickness c) /\
  ShapeColor c' =
    (if InstantBlendIn && bModifyShapeColor cfg
     then ToFColor (TargetShapeColor (self st)) true
     else ShapeColor c).
Proof.
  cbv zeta. destruct InstantBlendIn eqn:Ei; simpl.
  - split; [apply KeepsSelf_SnapToTargets|]. split.
    + eapply TracksAt_weaken; [|apply Tracks_SnapToTargets]. auto.
    + rewrite SnapToTargets_eq. apply SetAttributes_values.
  - split; [reflexivity|]. split; [now apply TracksAt_none|].
    unfold skip. repeat split; reflexivity.
Qed.

Lemma NotifyBegin_found (Mesh : USkeletalMeshComponent) (p : ptr) (T : Q) (st : State) :
  FindCapsuleComponent Mesh = Some p ->
  let st' := NotifyBegin (Some Mesh) T st in
  let c := world st p in
  let c' := world st' p in
  self st' = BeganMembers p c T (self st) /\
  TracksAt (begin_scoped p) (NotifyBegin (Some Mesh) T) st /\
  (forall k, is_attribute k = true ->
     same_on k c' (world (when InstantBlendIn (SnapToTargets p)
       (set_self (CaptureMembers p c (ResetMembers T (self st))) st)) p)) /\
  overridden c c'.
Proof.
  intro Hf. cbv zeta. unfold NotifyBegin. rewrite Hf. cbv zeta.
  set (s2 := CaptureMembers p (world (set_self (ResetMembers T (self st)) st) p)
               (self (set_self (ResetMembers T (self st)) st))).
  change (CaptureMembers p (world st p) (ResetMembers T (self st))) with s2.
  set (st1 := set_self (ResetMembers T (self st)) st).
  set (st2 := set_self s2 st1).
  unfold seq at 1. fold st2. unfold seq at 1.
  destruct (snap_values p st2) as (Hs3 & Ht3 & Hvals). cbv zeta in Hs3, Ht3, Hvals.
  set (st3 := when InstantBlendIn (SnapToTargets p) st2) in *.
  unfold seq.
  assert (Hp3 : CapsuleComp (self st3) = Some p) by (rewrite Hs3; reflexivity).
  assert (Hw23 : forall k, is_attribute k = false -> same_on k (world st3 p) (world st p)).
  { intros k Hk. apply (TracksAt_same_on _ _ st2 k Ht3).
    intros pe [[_ Ha] _]. now apply is_attribute_kind_neq. }
  set (st4 := SaveOriginalCollisionSettings st3).
  assert (Hs4 : self st4 = BeganMembers p (world st p) T (self st)).
  { unfold st4. rewrite (SaveOriginalCollisionSettings_self st3 p Hp3), Hs3.
    unfold BeganMembers. rewrite (Snapshot_ext (world st3 p) (world st p) Hw23).
    reflexivity. }
  assert (Hw4 : world st4 = world st3) by apply SaveOriginalCollisionSettings_world.
  assert (Hp4 : CapsuleComp (self st4) = Some p) by (rewrite Hs4; reflexivity).
  pose proof (Tracks_ApplyCollisionSettings st4 p Hp4) as Ht5.
  split; [|split; [|split]].
  - rewrite KeepsSelf_ApplyCollisionSettings. exact Hs4.
  - change (TracksAt (begin_scoped p)
      (seq (fun st => set_self (ResetMembers T (self st)) st)
        (seq (set_self s2)
          (seq (when InstantBlendIn (SnapToTargets p))
            (seq SaveOriginalCollisionSettings ApplyCollisionSettings)))) st).
    apply TracksAt_seq; [now apply TracksAt_none|].
    apply TracksAt_seq; [now apply TracksAt_none|].
    apply TracksAt_seq.
    { eapply TracksAt_weaken; [|exact Ht3]. intros pe [[Hg Ha] Hi].
      unfold begin_scoped. repeat split; auto; try apply Hg.
      unfold override_scoped. destruct pe as [q e]; destruct e; simpl in *;
        auto; discriminate. }
    apply TracksAt_seq.
    { eapply TracksAt_weaken; [|apply Tracks_SaveOriginalCollisionSettings].
      intros pe []. }
    eapply TracksAt_weaken; [|exact Ht5]. intros pe (Hq & Ha & Ho).
    unfold begin_scoped, gated. repeat split; auto.
    + destruct pe as [q e]; destruct e; simpl in *; auto; discriminate.
    + intro Ha'. congruence.
  - intros k Hk.
    change (same_on k (world (ApplyCollisionSettings st4) p) (world st3 p)).
    rewrite <- Hw4. apply (TracksAt_same_on _ _ st4 k Ht5).
    intros pe (_ & Ha & _) E. subst k. congruence.
  - apply overridden_ext with (world st3 p); [exact Hw23|].
    rewrite <- Hw4. now apply ApplyCollisionSettings_values.
Qed.

(** *** NotifyTick and NotifyEnd *)

Lemma IsActive_true (s : NotifyState) :
  IsActive s = true <-> bHasValidOriginals s = true /\ exists p, CapsuleComp s = Some p.
Proof.
  unfold IsActive. destruct (bHasValidOriginals s), (CapsuleComp s) as [p|]; simpl;
    split; try discriminate; eauto.
  - intros [_ [p Hp]]. discriminate.
  - intros [H _]. discriminate.
  - intros [H _]. discriminate.
Qed.

Lemma NotifyTick_inactive (dt : Q) (st : State) :
  IsActive (self st) = false -> NotifyTick dt st = st.
Proof.
  unfold IsActive, NotifyTick.
  destruct (bHasValidOriginals (self st)), (CapsuleComp (self st)); simpl;
    intro H; try discriminate; reflexivity.
Qed.

Lemma NotifyEnd_inactive (st : State) :
  IsActive (self st) = false -> NotifyEnd st = st.
Proof.
  unfold IsActive, NotifyEnd.
  destruct (bHasValidOriginals (self st)), (CapsuleComp (self st)); simpl;
    intro H; try discriminate; reflexivity.
Qed.

Lemma NotifyTick_active (dt : Q) (st : State) (p : ptr) :
  bHasValidOriginals (self st) = true -> CapsuleComp (self st) = Some p ->
  NotifyTick dt st =
  WriteInterpolated p (TickAlpha dt (self st)) (set_self (TickedMembers dt (self st)) st).
Proof.
  intros Hv Hp. unfold NotifyTick, TickAlpha, TickedMembers. rewrite Hv, Hp. cbv zeta.
  destruct (ComputeRawAlpha dt (AdvanceElapsed dt (self st))) as [[a bi] bo].
  reflexivity.
Qed.

Lemma NotifyEnd_active (st : State) (p : ptr) :
  bHasValidOriginals (self st) = true -> CapsuleComp (self st) = Some p ->
  NotifyEnd st =
  (fun st' => set_self (ClearMembers (self st')) st')
    (RestoreOriginalCollisionSettings (RestoreOriginals p st)).
Proof.
  intros Hv Hp. unfold NotifyEnd. rewrite Hv, Hp. reflexivity.
Qed.

Lemma TickedMembers_Retimed (dt : Q) (s : NotifyState) :
  exists e bi bo, TickedMembers dt s = Retimed e bi bo s.
Proof.
  unfold TickedMembers. cbv zeta.
  destruct (ComputeRawAlpha dt (AdvanceElapsed dt s)) as [[a bi] bo].
  exists (ElapsedTime s + dt), bi, bo. reflexivity.
Qed.

Lemma Tracks_NotifyTick (dt : Q) (st : State) :
  TracksAt (fun pe => CapsuleComp (self st) = Some (fst pe) /\
                      bHasValidOriginals (self st) = true /\
                      gated_attribute (fst pe) pe)
           (NotifyTick dt) st.
Proof.
  destruct (IsActive (self st)) eqn:Ea.
  - apply IsActive_true in Ea. destruct Ea as [Hv [p Hp]].
    unfold TracksAt, issues. rewrite (NotifyTick_active dt st p Hv Hp).
    destruct (Tracks_WriteInterpolated p (TickAlpha dt (self st))
                (set_self (TickedMembers dt (self st)) st)) as (l & [I1 I2] & F).
    exists l. split; [split; assumption|].
    eapply Forall_impl; [|exact F]. intros pe Hg. repeat split; try apply Hg; auto.
    destruct Hg as [[Hq _] _]. now rewrite Hq.
  - apply TracksAt_none; now rewrite NotifyTick_inactive.
Qed.

Lemma Tracks_NotifyEnd (st : State) :
  TracksAt (fun pe => CapsuleComp (self st) = Some (fst pe) /\
                      bHasValidOriginals (self st) = true /\
                      gated (fst pe) pe)
           NotifyEnd st.
Proof.
  destruct (IsActive (self st)) eqn:Ea.
  - apply IsActive_true in Ea. destruct Ea as [Hv [p Hp]].
    unfold TracksAt, issues. rewrite (NotifyEnd_active st p Hv Hp).
    change (TracksAt (fun pe => CapsuleComp (self st) = Some (fst pe) /\
                      bHasValidOriginals (self st) = true /\ gated (fst pe) pe)
      (seq (RestoreOriginals p)
         (seq RestoreOriginalCollisionSettings
            (fun st' => set_self (ClearMembers (self st')) st'))) st).
    apply TracksAt_seq; [|apply TracksAt_seq].
    + eapply TracksAt_weaken; [|apply Tracks_RestoreOriginals].
      intros pe [[Hq Hg] _]. rewrite Hq. repeat split; auto.
    + assert (Hp' : CapsuleComp (self (RestoreOriginals p st)) = Some p)
        by now rewrite KeepsSelf_RestoreOriginals.
      eapply TracksAt_weaken; [|apply (Tracks_RestoreOriginalCollisionSettings _ p Hp')].
      intros pe [Hq Ha]. rewrite Hq. repeat split; auto.
      destruct pe as [q e]; destruct e; simpl in *; auto; discriminate.
    + now apply TracksAt_none.
  - apply TracksAt_none; now rewrite NotifyEnd_inactive.
Qed.

(** Whatever the host calls, each setter call has its modify flag set. *)
Lemma Tracks_exec (c : Call) :
  Tracks (fun pe => modify_flag (kind (snd pe)) = true) (exec c).
Proof.
  intro st. destruct c as [MeshComp T|dt|]; simpl.
  - destruct MeshComp as [Mesh|].
    + destruct (FindCapsuleComponent Mesh) as [p|] eqn:Hf.
      * destruct (NotifyBegin_found Mesh p T st Hf) as (_ & Ht & _).
        eapply TracksAt_weaken; [|exact Ht]. intros pe [[_ Hg] _]. exact Hg.
      * apply TracksAt_none; now rewrite NotifyBegin_failed.
    + apply TracksAt_none; now rewrite NotifyBegin_failed.
  - eapply TracksAt_weaken; [|apply Tracks_NotifyTick].
    intros pe (_ & _ & [[_ Hg] _]). exact Hg.
  - eapply TracksAt_weaken; [|apply Tracks_NotifyEnd].
    intros pe (_ & _ & [_ Hg]). exact Hg.
Qed.

Lemma Tracks_run (P : ptr * Write -> Prop) (cs : list Call) :
  (forall c, In c cs -> Tracks P (exec c)) -> Tracks P (run cs).
Proof.
  unfold run. induction cs as [|c cs IH]; intro H.
  - apply Tracks_skip.
  - simpl. change (Tracks P (seq (exec c)
      (fun st => fold_left (fun st c => exec c st) cs st))).
    apply Tracks_seq; [apply H; now left|].
    apply IH. intros c' Hc'. apply H. now right.
Qed.

Lemma run_app (cs1 cs2 : list Call) (st : State) :
  run (cs1 ++ cs2) st = run cs2 (run cs1 st).
Proof. unfold run. apply fold_left_app. Qed.

Lemma Ticks_app (d1 d2 : list Q) (st : State) :
  Ticks (d1 ++ d2) st = Ticks d2 (Ticks d1 st).
Proof. unfold Ticks. now rewrite map_app, run_app. Qed.

Lemma Ticks_cons (dt : Q) (dts : list Q) (st : State) :
  Ticks (dt :: dts) st = Ticks dts (NotifyTick dt st).
Proof. reflexivity. Qed.

Lemma Ticks_snoc (dt : Q) (dts : list Q) (st : State) :
  Ticks (dts ++ [dt]) st = NotifyTick dt (Ticks dts st).
Proof. now rewrite Ticks_app. Qed.

(** Ticks assign the clock and the evaluators and no other member. *)
Lemma Ticks_self (dts : list Q) :
  forall st, exists e bi bo, self (Ticks dts st) = Retimed e bi bo (self st).
Proof.
  induction dts as [|dt dts IH]; intro st.
  - exists (ElapsedTime (self st)), (BlendInAlpha (self st)), (BlendOutAlpha (self st)).
    change (Ticks [] st) with st. now destruct (self st).
  - rewrite Ticks_cons. destruct (IH (NotifyTick dt st)) as (e & bi & bo & H).
    rewrite H. destruct (IsActive (self st)) eqn:Ea.
    + apply IsActive_true in Ea. destruct Ea as [Hv [p Hp]].
      rewrite (NotifyTick_active dt st p Hv Hp), KeepsSelf_WriteInterpolated.
      cbn [self set_self].
      destruct (TickedMembers_Retimed dt (self st)) as (e1 & bi1 & bo1 & H1).
      rewrite H1. exists e, bi, bo. reflexivity.
    + rewrite NotifyTick_inactive by assumption. eauto.
Qed.

Lemma SetResponses_writes (p : ptr) (m : TMap.t) :
  forall st,
    writes (SetResponses p m st) =
    writes st ++ map (fun kv => (p, WCollisionResponseToChannel (fst kv) (snd kv))) m.
Proof.
  unfold SetResponses. induction m as [|[k v] m IH]; intro st; simpl.
  - now rewrite app_nil_r.
  - rewrite IH. unfold SetCollisionResponseToChannel, write. simpl.
    now rewrite <- app_assoc.
Qed.

Lemma RestoreOriginalCollisionSettings_writes (st : State) (p : ptr) :
  CapsuleComp (self st) = Some p ->
  writes (RestoreOriginalCollisionSettings st) =
  writes st ++ restore_calls p (OriginalCapsuleSettings (self st)).
Proof.
  intro Hp. unfold RestoreOriginalCollisionSettings. rewrite Hp. cbv zeta.
  unfold seq. rewrite SetResponses_writes. unfold restore_calls, SetCollisionEnabled,
    SetCollisionProfileName, SetGenerateOverlapEvents, write. simpl.
  now rewrite <- !app_assoc.
Qed.

(** What End does to an active notify. *)
Lemma NotifyEnd_found (st : State) (p : ptr) :
  bHasValidOriginals (self st) = true -> CapsuleComp (self st) = Some p ->
  let st' := NotifyEnd st in
  let s := self st in
  let o := OriginalCapsuleSettings s in
  let c := world st p in
  let c' := world st' p in
  self st' = ClearMembers s /\
  (exists l, Forall (gated_attribute p) l /\
             writes st' = writes st ++ l ++ restore_calls p o) /\
  (GetUnscaledCapsuleRadius c' =
     (if bModifyRadius cfg then OriginalRadius s else GetUnscaledCapsuleRadius c) /\
   GetUnscaledCapsuleHalfHeight c' =
     (if bModifyHalfHeight cfg then OriginalHalfHeight s
      else GetUnscaledCapsuleHalfHeight c) /\
   GetRelativeScale3D c' =
     (if bModifyScale cfg then OriginalScale s else GetRelativeScale3D c) /\
   LineThickness c' =
     (if bModifyLineThickness cfg then OriginalLineThickness s else LineThickness c) /\
   ShapeColor c' =
     (if bModifyShapeColor cfg then ToFColor (OriginalShapeColor s) true
      else ShapeColor c)) /\
  (GetCollisionEnabled c' = CollisionEnabled o /\
   GetCollisionProfileName c' = CollisionProfileName o /\
   GetGenerateOverlapEvents c' = bGenerateOverlapEvents o /\
   forall ch r, last_response (CustomResponses o) ch = Some r ->
                GetCollisionResponseToChannel c' ch = r).
Proof.
  intros Hv Hp. cbv zeta. rewrite (NotifyEnd_active st p Hv Hp). cbv beta.
  set (st1 := RestoreOriginals p st).
  assert (Hs1 : self st1 = self st) by apply KeepsSelf_RestoreOriginals.
  assert (Hp1 : CapsuleComp (self st1) = Some p) by now rewrite Hs1.
  set (st2 := RestoreOriginalCollisionSettings st1).
  assert (Hs2 : self st2 = self st)
    by (unfold st2; now rewrite KeepsSelf_RestoreOriginalCollisionSettings).
  pose proof (Tracks_RestoreOriginalCollisionSettings st1 p Hp1) as Ht2.
  fold st2 in Ht2.
  cbn [self world writes set_self].
  split; [now rewrite Hs2|]. split; [|split].
  - destruct (Tracks_RestoreOriginals p st) as (l & [Hl _] & Fl).
    exists l. split; [exact Fl|].
    unfold st2. rewrite (RestoreOriginalCollisionSettings_writes st1 p Hp1), Hs1.
    fold st1 in Hl. rewrite Hl. now rewrite <- app_assoc.
  - assert (Hk : forall k, is_attribute k = true ->
                           same_on k (world st2 p) (world st1 p)).
    { intros k Hk. apply (TracksAt_same_on _ _ st1 k Ht2).
      intros pe [_ Ha] E. subst k. congruence. }
    pose proof (Hk KRadius eq_refl) as H1. pose proof (Hk KHalfHeight eq_refl) as H2.
    pose proof (Hk KScale eq_refl) as H3. pose proof (Hk KLineThickness eq_refl) as H4.
    pose proof (Hk KShapeColor eq_refl) as H5. simpl in H1, H2, H3, H4, H5.
    rewrite H1, H2, H3, H4, H5. unfold st1. rewrite RestoreOriginals_eq.
    apply SetAttributes_values.
  - destruct (RestoreOriginalCollisionSettings_values st1 p Hp1) as (He & Hn & Ho & Hr).
    fold st2 in He, Hn, Ho, Hr. rewrite Hs1 in He, Hn, Ho, Hr.
    repeat split; try assumption.
    intros ch r Hl. rewrite Hr, Hl. reflexivity.
Qed.

(** The five attributes right after a Begin that found capsule [p]. *)
Lemma NotifyBegin_attributes (Mesh : USkeletalMeshComponent) (p : ptr) (T : Q)
    (st : State) :
  FindCapsuleComponent Mesh = Some p ->
  let c := world st p in
  let c' := world (NotifyBegin (Some Mesh) T st) p in
  GetUnscaledCapsuleRadius c' =
    (if InstantBlendIn && bModifyRadius cfg then NewRadius cfg
     else GetUnscaledCapsuleRadius c) /\
  GetUnscaledCapsuleHalfHeight c' =
    (if InstantBlendIn && bModifyHalfHeight cfg then NewHalfHeight cfg
     else GetUnscaledCapsuleHalfHeight c) /\
  GetRelativeScale3D c' =
    (if InstantBlendIn && bModifyScale cfg then NewScale cfg
     else GetRelativeScale3D c) /\
  LineThickness c' =
    (if InstantBlendIn && bModifyLineThickness cfg then NewLineThickness cfg
     else LineThickness c) /\
  ShapeColor c' =
    (if InstantBlendIn && bModifyShapeColor cfg then ToFColor (NewShapeColor cfg) true
     else ShapeColor c).
Proof.
  intro Hf. cbv zeta.
  destruct (NotifyBegin_found Mesh p T st Hf) as (_ & _ & Hk & _). cbv zeta in Hk.
  pose proof (Hk KRadius eq_refl) as H1. pose proof (Hk KHalfHeight eq_refl) as H2.
  pose proof (Hk KScale eq_refl) as H3. pose proof (Hk KLineThickness eq_refl) as H4.
  pose proof (Hk KShapeColor eq_refl) as H5. unfold same_on in H1, H2, H3, H4, H5.
  rewrite H1, H2, H3, H4, H5.
  match goal with |- context [when InstantBlendIn (SnapToTargets p) ?s] =>
    destruct (snap_values p s) as (_ & _ & V1 & V2 & V3 & V4 & V5) end.
  cbv zeta in V1, V2, V3, V4, V5. rewrite V1, V2, V3, V4, V5.
  cbn [self set_self world CaptureMembers TargetRadius TargetHalfHeight TargetScale
       TargetLineThickness TargetShapeColor].
  destruct InstantBlendIn, (bModifyRadius cfg), (bModifyHalfHeight cfg),
    (bModifyScale cfg), (bModifyLineThickness cfg), (bModifyShapeColor cfg);
    repeat split; reflexivity.
Qed.

(** *** The members across Ticks *)

Lemma NotifyTick_self (dt : Q) (st : State) :
  self (NotifyTick dt st) =
  if IsActive (self st) then TickedMembers dt (self st) else self st.
Proof.
  destruct (IsActive (self st)) eqn:Ea.
  - apply IsActive_true in Ea. destruct Ea as [Hv [p Hp]].
    now rewrite (NotifyTick_active dt st p Hv Hp), KeepsSelf_WriteInterpolated.
  - now rewrite NotifyTick_inactive.
Qed.

Lemma TickedMembers_Elapsed (dt : Q) (s : NotifyState) :
  ElapsedTime (TickedMembers dt s) = ElapsedTime s + dt.
Proof.
  unfold TickedMembers. cbv zeta.
  now destruct (ComputeRawAlpha dt (AdvanceElapsed dt s)) as [[a bi] bo].
Qed.

Lemma TickedMembers_BlendIn (dt : Q) (s : NotifyState) :
  BlendInAlpha (TickedMembers dt s) =
  match PhaseAt dt s with
  | BlendInPhase => FAlphaBlend.Update dt (BlendInAlpha s)
  | _ => BlendInAlpha s
  end.
Proof.
  unfold TickedMembers, ComputeRawAlpha, PhaseAt. cbv zeta.
  cbn [AdvanceElapsed ElapsedTime NotifyTotalDuration BlendInAlpha BlendOutAlpha].
  now destruct (SelectPhase (ElapsedTime s + dt) (NotifyTotalDuration s)).
Qed.

Lemma TickedMembers_BlendOut (dt : Q) (s : NotifyState) :
  BlendOutAlpha (TickedMembers dt s) =
  match PhaseAt dt s with
  | BlendOutPhase => FAlphaBlend.Update dt (BlendOutAlpha s)
  | _ => BlendOutAlpha s
  end.
Proof.
  unfold TickedMembers, ComputeRawAlpha, PhaseAt. cbv zeta.
  cbn [AdvanceElapsed ElapsedTime NotifyTotalDuration BlendInAlpha BlendOutAlpha].
  now destruct (SelectPhase (ElapsedTime s + dt) (NotifyTotalDuration s)).
Qed.

Lemma TickedMembers_frozen (dt : Q) (s : NotifyState) :
  NotifyTotalDuration (TickedMembers dt s) = NotifyTotalDuration s /\
  bHasValidOriginals (TickedMembers dt s) = bHasValidOriginals s /\
  CapsuleComp (TickedMembers dt s) = CapsuleComp s.
Proof.
  destruct (TickedMembers_Retimed dt s) as (e & bi & bo & H). now rewrite H.
Qed.

(** The raw alpha of a Tick, read off the evaluators as the Tick leaves them. *)
Lemma RawAlphaAt_phase (dt : Q) (s : NotifyState) :
  RawAlphaAt dt s =
  FMath.Clamp
    match PhaseAt dt s with
    | BlendInPhase => FAlphaBlend.GetBlendedValue (BlendInAlpha (TickedMembers dt s))
    | HoldPhase => 1
    | BlendOutPhase => 1 - FAlphaBlend.GetBlendedValue (BlendOutAlpha (TickedMembers dt s))
    | ZeroBlendCase => 1
    end 0 1.
Proof.
  rewrite TickedMembers_BlendIn, TickedMembers_BlendOut.
  unfold RawAlphaAt, ComputeRawAlpha, PhaseAt.
  cbn [AdvanceElapsed ElapsedTime NotifyTotalDuration BlendInAlpha BlendOutAlpha].
  now destruct (SelectPhase (ElapsedTime s + dt) (NotifyTotalDuration s)).
Qed.

Lemma Advances_refl (s : NotifyState) : Advances s s.
Proof. unfold Advances. repeat split; try reflexivity; apply Qle_refl. Qed.

Lemma Advances_trans (a b c : NotifyState) : Advances a b -> Advances b c -> Advances a c.
Proof.
  unfold Advances. intros (A1 & A2 & A3 & A4 & A5 & A6 & A7 & A8)
    (B1 & B2 & B3 & B4 & B5 & B6 & B7 & B8).
  repeat split; try congruence; eapply Qle_trans; eauto.
Qed.

Lemma Advances_TickedMembers (dt : Q) (s : NotifyState) :
  0 <= dt -> Advances s (TickedMembers dt s).
Proof.
  intro Hdt. unfold Advances.
  rewrite TickedMembers_Elapsed, TickedMembers_BlendIn, TickedMembers_BlendOut.
  destruct (TickedMembers_frozen dt s) as (Ht & _). rewrite Ht.
  destruct (PhaseAt dt s); simpl; repeat split; lra.
Qed.

Lemma Advances_NotifyTick (dt : Q) (st : State) :
  0 <= dt -> Advances (self st) (self (NotifyTick dt st)).
Proof.
  intro Hdt. rewrite NotifyTick_self. destruct (IsActive (self st)).
  - now apply Advances_TickedMembers.
  - apply Advances_refl.
Qed.

Lemma Advances_Ticks (dts : list Q) :
  forall st, Forall (fun dt => 0 <= dt) dts -> Advances (self st) (self (Ticks dts st)).
Proof.
  induction dts as [|dt dts IH]; intros st H.
  - apply Advances_refl.
  - inversion H as [|? ? Hdt Hdts]; subst. rewrite Ticks_cons.
    apply Advances_trans with (self (NotifyTick dt st));
      [now apply Advances_NotifyTick | now apply IH].
Qed.

(** *** The linear evaluator *)

Lemma GetAlpha_bounds (b : FAlphaBlend.t) : 0 <= FAlphaBlend.GetAlpha b <= 1.
Proof.
  unfold FAlphaBlend.GetAlpha. destruct (Qle_bool (FAlphaBlend.BlendTime b) 0).
  - lra.
  - apply Clamp_bounds. lra.
Qed.


Lemma Qdiv_le_mono (x y d : Q) : 0 < d -> x <= y -> x / d <= y / d.
Proof.
  intros Hd Hxy. unfold Qdiv. apply Qmult_le_compat_r; [exact Hxy|].
  apply Qlt_le_weak. now apply Qinv_lt_0_compat.
Qed.

(** With the same duration, more progress gives no smaller a linear alpha. *)
Lemma GetAlpha_mono (b b' : FAlphaBlend.t) :
  FAlphaBlend.BlendTime b' = FAlphaBlend.BlendTime b ->
  FAlphaBlend.Progress b <= FAlphaBlend.Progress b' ->
  FAlphaBlend.GetAlpha b <= FAlphaBlend.GetAlpha b'.
Proof.
  intros Ht Hp. unfold FAlphaBlend.GetAlpha. rewrite Ht.
  destruct (Qle_bool (FAlphaBlend.BlendTime b) 0) eqn:E; [lra|].
  qbool. apply Clamp_mono; [lra|]. now apply Qdiv_le_mono.
Qed.

Lemma GetBlendedValue_Linear (b : FAlphaBlend.t) :
  FAlphaBlend.BlendOption b = Linear ->
  FAlphaBlend.GetBlendedValue b = FAlphaBlend.GetAlpha b.
Proof. unfold FAlphaBlend.GetBlendedValue. now intros ->. Qed.

(** Between two linear evaluator states of which the second is no less
    advanced, the blended value does not decrease. *)
Lemma GetBlendedValue_mono (b b' : FAlphaBlend.t) :
  FAlphaBlend.BlendOption b = Linear ->
  FAlphaBlend.BlendOption b' = Linear ->
  FAlphaBlend.BlendTime b' = FAlphaBlend.BlendTime b ->
  FAlphaBlend.Progress b <= FAlphaBlend.Progress b' ->
  FAlphaBlend.GetBlendedValue b <= FAlphaBlend.GetBlendedValue b'.
Proof.
  intros Ho Ho' Ht Hp. rewrite !GetBlendedValue_Linear by assumption.
  now apply GetAlpha_mono.
Qed.

(** The members right after a Begin that found its capsule, and after Ticks. *)
Lemma Ticks_after_Begin (Mesh : USkeletalMeshComponent) (p : ptr) (T : Q)
    (dts : list Q) (st : State) :
  FindCapsuleComponent Mesh = Some p ->
  exists e bi bo,
    self (Ticks dts (NotifyBegin (Some Mesh) T st)) =
    Retimed e bi bo (BeganMembers p (world st p) T (self st)).
Proof.
  intro Hf. destruct (NotifyBegin_found Mesh p T st Hf) as (Hs & _). cbv zeta in Hs.
  destruct (Ticks_self dts (NotifyBegin (Some Mesh) T st)) as (e & bi & bo & H).
  rewrite Hs in H. eauto.
Qed.

Lemma IsActive_after_Begin (Mesh : USkeletalMeshComponent) (p : ptr) (T : Q)
    (dts : list Q) (st : State) :
  FindCapsuleComponent Mesh = Some p ->
  IsActive (self (Ticks dts (NotifyBegin (Some Mesh) T st))) = true.
Proof.
  intro Hf. destruct (Ticks_after_Begin Mesh p T dts st Hf) as (e & bi & bo & H).
  now rewrite H.
Qed.

(** *** Attribute values along a lifecycle *)

(** The five attributes after a Tick on an active notify. *)
Lemma NotifyTick_attributes (dt : Q) (st : State) (p : ptr) :
  bHasValidOriginals (self st) = true -> CapsuleComp (self st) = Some p ->
  let s := self st in
  let a := TickAlpha dt s in
  let c := world st p in
  let c' := world (NotifyTick dt st) p in
  GetUnscaledCapsuleRadius c' =
    (if bModifyRadius cfg then FMath.Lerp (OriginalRadius s) (TargetRadius s) a
     else GetUnscaledCapsuleRadius c) /\
  GetUnscaledCapsuleHalfHeight c' =
    (if bModifyHalfHeight cfg
     then FMath.Lerp (OriginalHalfHeight s) (TargetHalfHeight s) a
     else GetUnscaledCapsuleHalfHeight c) /\
  GetRelativeScale3D c' =
    (if bModifyScale cfg then FVector.Lerp (OriginalScale s) (TargetScale s) a
     else GetRelativeScale3D c) /\
  LineThickness c' =
    (if bModifyLineThickness cfg
     then FMath.Lerp (OriginalLineThickness s) (TargetLineThickness s) a
     else LineThickness c) /\
  ShapeColor c' =
    (if bModifyShapeColor cfg
     then ToFColor (FLinearColor.Lerp (OriginalShapeColor s) (TargetShapeColor s) a) true
     else ShapeColor c).
Proof.
  intros Hv Hp. cbv zeta. rewrite (NotifyTick_active dt st p Hv Hp), WriteInterpolated_eq.
  destruct (TickedMembers_Retimed dt (self st)) as (e & bi & bo & H).
  cbn [self set_self]. rewrite H.
  cbn [Retimed OriginalRadius OriginalHalfHeight OriginalScale OriginalLineThickness
       OriginalShapeColor TargetRadius TargetHalfHeight TargetScale TargetLineThickness
       TargetShapeColor].
  exact (SetAttributes_values p _ _ _ _ _ (set_self (Retimed e bi bo (self st)) st)).
Qed.

(** Calls leave alone what has no modify flag set. *)
Lemma run_unmodified (cs : list Call) (st : State) (k : Kind) :
  modify_flag k = false ->
  TracksAt (fun pe => kind (snd pe) <> k) (run cs) st.
Proof.
  intro Hk. apply (Tracks_weaken (fun pe => modify_flag (kind (snd pe)) = true)).
  - intros pe Hg E. rewrite E in Hg. congruence.
  - apply Tracks_run. intros c _. apply Tracks_exec.
Qed.

Lemma run_Lifecycle (Mesh : USkeletalMeshComponent) (T : Q) (dts : list Q) (st : State) :
  run (Lifecycle Mesh T dts) st = NotifyEnd (Ticks dts (NotifyBegin (Some Mesh) T st)).
Proof.
  unfold Lifecycle.
  change (run (CallBegin (Some Mesh) T :: map CallTick dts ++ [CallEnd]) st)
    with (run (map CallTick dts ++ [CallEnd]) (NotifyBegin (Some Mesh) T st)).
  now rewrite run_app.
Qed.

(** The five attributes after a whole lifecycle.  Line 44 reads
    [OriginalLineThickness], which Begin never assigns, so the line thickness
    comes back as whatever that member held before Begin. *)
Lemma Lifecycle_attributes (Mesh : USkeletalMeshComponent) (p : ptr) (T : Q)
    (dts : list Q) (st : State) :
  FindCapsuleComponent Mesh = Some p ->
  let c := world st p in
  let c' := world (run (Lifecycle Mesh T dts) st) p in
  GetUnscaledCapsuleRadius c' = GetUnscaledCapsuleRadius c /\
  GetUnscaledCapsuleHalfHeight c' = GetUnscaledCapsuleHalfHeight c /\
  GetRelativeScale3D c' = GetRelativeScale3D c /\
  LineThickness c' =
    (if bModifyLineThickness cfg then OriginalLineThickness (self st)
     else LineThickness c) /\
  ShapeColor c' =
    (if bModifyShapeColor cfg then ToFColor (ReinterpretAsLinear (ShapeColor c)) true
     else ShapeColor c).
Proof.
  intro Hf. cbv zeta. rewrite run_Lifecycle.
  destruct (Ticks_after_Begin Mesh p T dts st Hf) as (e & bi & bo & HsT).
  set (stT := Ticks dts (NotifyBegin (Some Mesh) T st)) in *.
  assert (Hv : bHasValidOriginals (self stT) = true) by now rewrite HsT.
  assert (Hp : CapsuleComp (self stT) = Some p) by now rewrite HsT.
  destruct (NotifyEnd_found stT p Hv Hp) as (_ & _ & (V1 & V2 & V3 & V4 & V5) & _).
  cbv zeta in V1, V2, V3, V4, V5. rewrite V1, V2, V3, V4, V5, HsT.
  cbn [Retimed BeganMembers WithSnapshot CaptureMembers ResetMembers OriginalRadius
       OriginalHalfHeight OriginalScale OriginalLineThickness OriginalShapeColor].
  assert (Hun : forall k, modify_flag k = false ->
                          same_on k (world stT p) (world st p)).
  { intros k Hk.
    change stT with (run (CallBegin (Some Mesh) T :: map CallTick dts) st).
    apply (TracksAt_same_on _ _ st k (run_unmodified _ st k Hk)). auto. }
  repeat split.
  - destruct (bModifyRadius cfg) eqn:E; [reflexivity|]. now apply (Hun KRadius).
  - destruct (bModifyHalfHeight cfg) eqn:E; [reflexivity|]. now apply (Hun KHalfHeight).
  - destruct (bModifyScale cfg) eqn:E; [reflexivity|]. now apply (Hun KScale).
  - destruct (bModifyLineThickness cfg) eqn:E; [reflexivity|].
    now apply (Hun KLineThickness).
  - destruct (bModifyShapeColor cfg) eqn:E; [reflexivity|]. now apply (Hun KShapeColor).
Qed.

Lemma ApplyEaseCurve_none (a : Q) : NoEaseCurve -> ApplyEaseCurve a = a.
Proof.
  unfold NoEaseCurve, ApplyEaseCurve. destruct (EaseCurve cfg) as [Curve|]; [|reflexivity].
  now intros ->.
Qed.

Lemma FVector_Lerp_one (a b : FVector.t) : FVector.equiv (FVector.Lerp a b 1) b.
Proof. unfold FVector.equiv, FVector.Lerp. simpl. repeat split; apply Lerp_one. Qed.

Lemma FLinearColor_Lerp_one (a b : FLinearColor.t) :
  FLinearColor.equiv (FLinearColor.Lerp a b 1) b.
Proof.
  unfold FLinearColor.equiv, FLinearColor.Lerp. simpl. repeat split; apply Lerp_one.
Qed.


(** The alpha used by a Tick is the raw alpha when no ease curve takes part. *)
Lemma TickAlpha_raw (dt : Q) (s : NotifyState) :
  NoEaseCurve -> TickAlpha dt s = RawAlphaAt dt s.
Proof. intro H. unfold TickAlpha, RawAlphaAt. now apply ApplyEaseCurve_none. Qed.

Lemma NoEaseCurve_keeps_one : NoEaseCurve -> EaseKeepsOne.
Proof. intro H. unfold EaseKeepsOne. now apply ApplyEaseCurve_none. Qed.


(** *** The scenario: total 2, blend-in 1/2, blend-out 1/2, linear *)

Lemma GetAlpha_value (b : FAlphaBlend.t) :
  0 < FAlphaBlend.BlendTime b ->
  0 <= FAlphaBlend.Progress b <= FAlphaBlend.BlendTime b ->
  FAlphaBlend.GetAlpha b == FAlphaBlend.Progress b / FAlphaBlend.BlendTime b.
Proof.
  intros Ht [Hp0 Hp1]. unfold FAlphaBlend.GetAlpha.
  replace (Qle_bool (FAlphaBlend.BlendTime b) 0) with false
    by (symmetry; apply Qle_bool_false; exact Ht).
  apply Clamp_id. split.
  - apply Qle_shift_div_l; [exact Ht | lra].
  - apply Qle_shift_div_r; [exact Ht | lra].
Qed.

Section Scenario.

Hypothesis HIn : BlendTimeIn cfg == 1 # 2.
Hypothesis HOut : BlendTimeOut cfg == 1 # 2.
Hypothesis Heps : KINDA_SMALL_NUMBER < 1 # 2.

Lemma scenario_phase (dt : Q) (s : NotifyState) :
  NotifyTotalDuration s == 2 ->
  let e := ElapsedTime s + dt in
  (e < 1 # 2 -> PhaseAt dt s = BlendInPhase) /\
  (1 # 2 <= e <= 3 # 2 -> PhaseAt dt s = HoldPhase) /\
  (3 # 2 < e -> PhaseAt dt s = BlendOutPhase).
Proof.
  intro HT. cbv zeta. unfold PhaseAt, SelectPhase.
  replace (Qlt_bool KINDA_SMALL_NUMBER (BlendTimeIn cfg)) with true
    by (symmetry; apply Qlt_bool_true; lra).
  replace (Qlt_bool KINDA_SMALL_NUMBER (BlendTimeOut cfg)) with true
    by (symmetry; apply Qlt_bool_true; lra).
  cbn [andb].
  destruct (Qlt_bool (ElapsedTime s + dt) (BlendTimeIn cfg)) eqn:E1;
    destruct (Qle_bool (BlendTimeIn cfg) (ElapsedTime s + dt)) eqn:E2;
    destruct (Qle_bool (ElapsedTime s + dt) (NotifyTotalDuration s - BlendTimeOut cfg))
      eqn:E3;
    destruct (Qlt_bool (NotifyTotalDuration s - BlendTimeOut cfg) (ElapsedTime s + dt))
      eqn:E4;
    qbool; cbn [andb]; repeat split; intros; try reflexivity; lra.
Qed.

Lemma ScenarioInv_TickedMembers (dt : Q) (s : NotifyState) :
  0 <= dt -> ScenarioInv s -> ScenarioInv (TickedMembers dt s).
Proof.
  intros Hdt (HT & HE & Bi & Oi & Bo & Oo & Pi & Po0 & Po1 & Po2).
  destruct (scenario_phase dt s HT) as (PhI & PhH & PhO). cbv zeta in PhI, PhH, PhO.
  unfold ScenarioInv.
  rewrite TickedMembers_Elapsed, TickedMembers_BlendIn, TickedMembers_BlendOut.
  destruct (TickedMembers_frozen dt s) as (Ht & _). rewrite Ht.
  destruct (Qlt_le_dec (ElapsedTime s + dt) (1 # 2)) as [C1|C1].
  - rewrite (PhI C1). simpl. repeat split; try assumption; try lra.
  - destruct (Qlt_le_dec (3 # 2) (ElapsedTime s + dt)) as [C2|C2].
    + rewrite (PhO C2). simpl. repeat split; try assumption; try lra.
    + rewrite (PhH (conj C1 C2)). repeat split; try assumption; try lra.
Qed.

Lemma ScenarioOut_TickedMembers (dt : Q) (s : NotifyState) :
  0 <= dt -> ScenarioOut s -> ScenarioOut (TickedMembers dt s).
Proof.
  intros Hdt (HI & HE & HP). split; [now apply ScenarioInv_TickedMembers|].
  destruct HI as (HT & _).
  destruct (scenario_phase dt s HT) as (_ & PhH & PhO). cbv zeta in PhH, PhO.
  rewrite TickedMembers_Elapsed, TickedMembers_BlendOut.
  destruct (Qlt_le_dec (3 # 2) (ElapsedTime s + dt)) as [C2|C2].
  - rewrite (PhO C2). simpl. split; lra.
  - rewrite PhH by lra. split; lra.
Qed.

Lemma ScenarioInv_Ticks (dts : list Q) :
  forall st, Forall (fun dt => 0 <= dt) dts ->
             ScenarioInv (self st) -> ScenarioInv (self (Ticks dts st)).
Proof.
  induction dts as [|dt dts IH]; intros st H Hs; [exact Hs|].
  inversion H as [|? ? Hdt Hdts]; subst. rewrite Ticks_cons. apply IH; [assumption|].
  rewrite NotifyTick_self. destruct (IsActive (self st)); [|exact Hs].
  now apply ScenarioInv_TickedMembers.
Qed.

Lemma ScenarioOut_Ticks (dts : list Q) :
  forall st, Forall (fun dt => 0 <= dt) dts ->
             ScenarioOut (self st) -> ScenarioOut (self (Ticks dts st)).
Proof.
  induction dts as [|dt dts IH]; intros st H Hs; [exact Hs|].
  inversion H as [|? ? Hdt Hdts]; subst. rewrite Ticks_cons. apply IH; [assumption|].
  rewrite NotifyTick_self. destruct (IsActive (self st)); [|exact Hs].
  now apply ScenarioOut_TickedMembers.
Qed.

(** The raw alpha of a Tick in the scenario, by where its elapsed time lands.
    In the blend-out window the value is stated for members whose blend-out
    evaluator has advanced by exactly the time elapsed beyond 3/2. *)
Lemma scenario_raw_alpha (dt : Q) (s : NotifyState) :
  0 <= dt -> ScenarioInv s ->
  let e := ElapsedTime s + dt in
  (e == 1 # 4 -> RawAlphaAt dt s == 1 # 2) /\
  (1 # 2 <= e <= 3 # 2 -> RawAlphaAt dt s == 1) /\
  (3 # 2 < e <= 2 -> ScenarioOut s -> RawAlphaAt dt s == 1 - 2 * (e - (3 # 2))).
Proof.
  intros Hdt HI. pose proof (ScenarioInv_TickedMembers dt s Hdt HI) as HI'.
  destruct HI as (HT & HE & Bi & Oi & Bo & Oo & Pi & Po0 & Po1 & Po2).
  destruct HI' as (_ & _ & Bi' & Oi' & Bo' & Oo' & Pi' & Po0' & Po1' & Po2').
  rewrite TickedMembers_Elapsed in Pi', Po1', Po2'.
  destruct (scenario_phase dt s HT) as (PhI & PhH & PhO). cbv zeta in PhI, PhH, PhO.
  cbv zeta. rewrite RawAlphaAt_phase. split; [|split].
  - intro He. rewrite PhI by lra. rewrite GetBlendedValue_Linear by assumption.
    assert (Hv : FAlphaBlend.GetAlpha (BlendInAlpha (TickedMembers dt s)) == 1 # 2).
    { rewrite GetAlpha_value; [|lra|rewrite Pi' by lra; lra].
      rewrite Pi' by lra. rewrite Bi', He. reflexivity. }
    rewrite Clamp_id; [exact Hv|lra].
  - intro He. rewrite PhH by lra. reflexivity.
  - intros He (_ & HE3 & Hex). rewrite PhO by lra.
    rewrite GetBlendedValue_Linear by assumption.
    pose proof (GetAlpha_bounds (BlendOutAlpha (TickedMembers dt s))) as Hb.
    assert (Hv : FAlphaBlend.GetAlpha (BlendOutAlpha (TickedMembers dt s)) ==
                 2 * (ElapsedTime s + dt - (3 # 2))).
    { rewrite TickedMembers_BlendOut, PhO in * by lra.
      cbn [FAlphaBlend.Update FAlphaBlend.Progress FAlphaBlend.BlendTime] in *.
      rewrite GetAlpha_value;
        cbn [FAlphaBlend.Update FAlphaBlend.Progress FAlphaBlend.BlendTime];
        [|lra|lra].
      rewrite Hex, Bo. field. }
    rewrite Clamp_id by lra. rewrite Hv. reflexivity.
Qed.

End Scenario.

(** ** The claims *)

(** C2.  For an attribute whose modify flag is false, no sequence of host calls
    (any mix of Begin, Tick and End, hence every prefix of every lifecycle)
    issues a setter call for it, and every component reads the same through
    that accessor afterwards as before. *)
Theorem C2_unmodified_attribute_never_written (cs : list Call) (st : State) (k : Kind) :
  modify_flag k = false ->
  (exists l, writes (run cs st) = writes st ++ l /\
             Forall (fun pe => kind (snd pe) <> k) l) /\
  forall q, same_on k (world (run cs st) q) (world st q).
Proof.
  intro Hk. pose proof (run_unmodified cs st k Hk) as Ht.
  split.
  - destruct Ht as (l & [Hl _] & Fl). eauto.
  - apply (TracksAt_same_on _ _ st k Ht). auto.
Qed.

(** C3.  A Begin with a null mesh, or whose locator finds no capsule, leaves
    the notify inactive and neither the store nor the log changes; an inactive
    notify ([st0]: never begun, failed Begin, or ended) is left wholly
    unchanged by any sequence of Tick and End calls; and End always leaves the
    notify inactive. *)
Theorem C3_inactive_session_is_inert
    (MeshComp : option USkeletalMeshComponent) (T : Q) (st st0 st1 : State)
    (cs : list Call) :
  match MeshComp with
  | None => True
  | Some Mesh => FindCapsuleComponent Mesh = None
  end ->
  IsActive (self st0) = false ->
  forallb not_begin cs = true ->
  let st' := NotifyBegin MeshComp T st in
  (IsActive (self st') = false /\ world st' = world st /\ writes st' = writes st /\
   run cs st' = st') /\
  run cs st0 = st0 /\
  (IsActive (self (NotifyEnd st1)) = false /\ run cs (NotifyEnd st1) = NotifyEnd st1).
Proof.
  intros Hfail Hin Hcs. cbv zeta.
  assert (Hrun : forall s, IsActive (self s) = false -> run cs s = s).
  { clear Hin. induction cs as [|c cs IH]; intros s Hs; [reflexivity|].
    simpl in Hcs. apply andb_true_iff in Hcs. destruct Hcs as [Hc Hcs].
    unfold run. simpl. fold (run cs (exec c s)).
    destruct c as [M T'|dt|]; simpl in Hc; try discriminate; simpl.
    - rewrite NotifyTick_inactive by assumption. now apply IH.
    - rewrite NotifyEnd_inactive by assumption. now apply IH. }
  assert (Hend : IsActive (self (NotifyEnd st1)) = false).
  { destruct (IsActive (self st1)) eqn:Ea.
    - apply IsActive_true in Ea. destruct Ea as [Hv [p Hp]].
      now rewrite (NotifyEnd_active st1 p Hv Hp).
    - now rewrite NotifyEnd_inactive. }
  rewrite (NotifyBegin_failed MeshComp T st Hfail).
  repeat split; auto.
Qed.

(** C4.  When the configured blend-in duration is at most [KINDA_SMALL_NUMBER],
    right after a Begin that found its capsule, with no Tick yet, every
    attribute whose modify flag is set reads as its resolved target on the
    capsule (the shape color as the [FColor] of the resolved target), and that
    resolved target is the configured value. *)
Theorem C4_instant_blend_in_snaps_at_begin (Mesh : USkeletalMeshComponent) (p : ptr)
    (T : Q) (st : State) :
  FindCapsuleComponent Mesh = Some p ->
  BlendTimeIn cfg <= KINDA_SMALL_NUMBER ->
  let st' := NotifyBegin (Some Mesh) T st in
  let s' := self st' in
  let c' := world st' p in
  (bModifyRadius cfg = true ->
     GetUnscaledCapsuleRadius c' = TargetRadius s' /\ TargetRadius s' = NewRadius cfg) /\
  (bModifyHalfHeight cfg = true ->
     GetUnscaledCapsuleHalfHeight c' = TargetHalfHeight s' /\
     TargetHalfHeight s' = NewHalfHeight cfg) /\
  (bModifyScale cfg = true ->
     GetRelativeScale3D c' = TargetScale s' /\ TargetScale s' = NewScale cfg) /\
  (bModifyLineThickness cfg = true ->
     LineThickness c' = TargetLineThickness s' /\
     TargetLineThickness s' = NewLineThickness cfg) /\
  (bModifyShapeColor cfg = true ->
     ShapeColor c' = ToFColor (TargetShapeColor s') true /\
     TargetShapeColor s' = NewShapeColor cfg).
Proof.
  intros Hf Hin. cbv zeta.
  destruct (NotifyBegin_found Mesh p T st Hf) as (Hs & _). cbv zeta in Hs.
  destruct (NotifyBegin_attributes Mesh p T st Hf) as (V1 & V2 & V3 & V4 & V5).
  cbv zeta in V1, V2, V3, V4, V5.
  assert (Hi : InstantBlendIn = true) by (apply Qle_bool_iff; exact Hin).
  rewrite Hi in V1, V2, V3, V4, V5. rewrite Hs, V1, V2, V3, V4, V5.
  cbn [BeganMembers WithSnapshot CaptureMembers TargetRadius TargetHalfHeight TargetScale
       TargetLineThickness TargetShapeColor].
  repeat match goal with |- _ /\ _ => split end;
    intro Hm; rewrite Hm; simpl; split; reflexivity.
Qed.

(** C7.  The collision setter calls that Begin issues are those whose override
    flag is set, with the configured value (query-only instead of the
    configured mode under the force flag), and the capsule reads accordingly;
    End, after any Ticks, issues the four kinds of collision setter calls with
    the values read at Begin, for every channel below [ECC_MAX], whatever the
    override flags, and the capsule reads as before Begin. *)
Theorem C7_collision_override_scoping (Mesh : USkeletalMeshComponent) (p : ptr)
    (T : Q) (dts : list Q) (st : State) :
  FindCapsuleComponent Mesh = Some p ->
  let stB := NotifyBegin (Some Mesh) T st in
  let stT := Ticks dts stB in
  let stE := NotifyEnd stT in
  let c := world st p in
  (exists l, writes stB = writes st ++ l /\ Forall override_scoped l) /\
  overridden c (world stB p) /\
  (exists l,
     writes stE = writes stT ++ l /\
     In (p, WCollisionEnabled (GetCollisionEnabled c)) l /\
     In (p, WCollisionProfileName (GetCollisionProfileName c)) l /\
     In (p, WGenerateOverlapEvents (GetGenerateOverlapEvents c)) l /\
     forall ch, (ch < ECC_MAX)%nat ->
       In (p, WCollisionResponseToChannel ch (GetCollisionResponseToChannel c ch)) l) /\
  GetCollisionEnabled (world stE p) = GetCollisionEnabled c /\
  GetCollisionProfileName (world stE p) = GetCollisionProfileName c /\
  GetGenerateOverlapEvents (world stE p) = GetGenerateOverlapEvents c /\
  forall ch, (ch < ECC_MAX)%nat ->
    GetCollisionResponseToChannel (world stE p) ch = GetCollisionResponseToChannel c ch.
Proof.
  intro Hf. cbv zeta.
  destruct (NotifyBegin_found Mesh p T st Hf) as (Hs & Ht & _ & Ho). cbv zeta in Hs, Ho.
  set (stB := NotifyBegin (Some Mesh) T st) in *.
  destruct (Ticks_self dts stB) as (e & bi & bo & HsT).
  set (stT := Ticks dts stB) in *. rewrite Hs in HsT.
  assert (Hv : bHasValidOriginals (self stT) = true) by now rewrite HsT.
  assert (Hp : CapsuleComp (self stT) = Some p) by now rewrite HsT.
  assert (Hsnap : OriginalCapsuleSettings (self stT) = Snapshot (world st p))
    by now rewrite HsT.
  destruct (NotifyEnd_found stT p Hv Hp) as (_ & (l & _ & Hl) & _ & He & Hn & Hov & Hr).
  cbv zeta in Hl, He, Hn, Hov, Hr. rewrite Hsnap in Hl, He, Hn, Hov, Hr.
  split; [|split; [exact Ho|split; [|repeat split; try assumption]]].
  - destruct Ht as (l0 & [Hl0 _] & F0). exists l0. split; [exact Hl0|].
    eapply Forall_impl; [|exact F0]. intros pe (_ & _ & H). exact H.
  - exists (l ++ restore_calls p (Snapshot (world st p))). split; [exact Hl|].
    unfold restore_calls. cbn [Snapshot CollisionEnabled CollisionProfileName
      bGenerateOverlapEvents CustomResponses].
    repeat split.
    + apply in_or_app. right. simpl. auto.
    + apply in_or_app. right. simpl. auto.
    + apply in_or_app. right. simpl. auto.
    + intros ch Hch. apply in_or_app. right. apply in_or_app. right.
      apply (in_map (fun kv => (p, WCollisionResponseToChannel (fst kv) (snd kv)))
               _ (ch, GetCollisionResponseToChannel (world st p) ch)).
      now apply In_response_table.
  - intros ch Hch. apply Hr. cbn [Snapshot CustomResponses].
    now apply last_response_table.
Qed.

(** C9.  On a Tick whose advanced elapsed time equals the total duration minus
    the blend-out duration, and is at least the blend-in duration, the hold
    branch is the one taken: the raw alpha is 1 and the blend-out evaluator is
    left as it was. *)
Theorem C9_hold_wins_at_blend_out_boundary (dt : Q) (st : State) :
  let s := self st in
  ElapsedTime s + dt == NotifyTotalDuration s - BlendTimeOut cfg ->
  BlendTimeIn cfg <= ElapsedTime s + dt ->
  PhaseAt dt s = HoldPhase /\
  RawAlphaAt dt s = 1 /\
  BlendOutAfter dt s = BlendOutAlpha s /\
  BlendOutAlpha (self (NotifyTick dt st)) = BlendOutAlpha s.
Proof.
  cbv zeta. intros Heq Hin.
  assert (Hph : PhaseAt dt (self st) = HoldPhase).
  { unfold PhaseAt, SelectPhase.
    replace (Qlt_bool (ElapsedTime (self st) + dt) (BlendTimeIn cfg)) with false
      by (symmetry; apply Qlt_bool_false; exact Hin).
    rewrite andb_false_r.
    replace (Qle_bool (BlendTimeIn cfg) (ElapsedTime (self st) + dt)) with true
      by (symmetry; apply Qle_bool_iff; exact Hin).
    replace (Qle_bool (ElapsedTime (self st) + dt)
               (NotifyTotalDuration (self st) - BlendTimeOut cfg)) with true
      by (symmetry; apply Qle_bool_iff; rewrite Heq; apply Qle_refl).
    reflexivity. }
  assert (Hc : ComputeRawAlpha dt (AdvanceElapsed dt (self st)) =
               (1, BlendInAlpha (self st), BlendOutAlpha (self st))).
  { unfold ComputeRawAlpha. cbn [AdvanceElapsed ElapsedTime NotifyTotalDuration
      BlendInAlpha BlendOutAlpha].
    unfold PhaseAt in Hph. rewrite Hph. reflexivity. }
  split; [exact Hph|]. split; [|split].
  - unfold RawAlphaAt. now rewrite Hc.
  - unfold BlendOutAfter. now rewrite Hc.
  - destruct (IsActive (self st)) eqn:Ea.
    + apply IsActive_true in Ea. destruct Ea as [Hv [p Hp]].
      rewrite (NotifyTick_active dt st p Hv Hp), KeepsSelf_WriteInterpolated.
      cbn [self set_self]. unfold TickedMembers. cbv zeta. rewrite Hc. reflexivity.
    + now rewrite NotifyTick_inactive.
Qed.

(** C10.  After every Begin that found its capsule, whatever the blend-in
    duration and the modify flags, the members hold the capsule's collision
    settings as they were before Begin (all four marked for restore, every
    channel below [ECC_MAX] recorded) and the capsule already reads with the
    configured overrides applied. *)
Theorem C10_collision_saved_and_applied_at_begin (Mesh : USkeletalMeshComponent)
    (p : ptr) (T : Q) (st : State) :
  FindCapsuleComponent Mesh = Some p ->
  let st' := NotifyBegin (Some Mesh) T st in
  let o := OriginalCapsuleSettings (self st') in
  let c := world st p in
  (CollisionEnabled o = GetCollisionEnabled c /\
   CollisionProfileName o = GetCollisionProfileName c /\
   bGenerateOverlapEvents o = GetGenerateOverlapEvents c /\
   (forall ch, (ch < ECC_MAX)%nat ->
      last_response (CustomResponses o) ch = Some (GetCollisionResponseToChannel c ch)) /\
   bForceQueryOnly o = false /\
   bOverrideCollisionEnabled o = true /\ bOverrideCollisionProfileName o = true /\
   bOverrideGenerateOverlapEvents o = true /\ bOverrideCustomResponses o = true) /\
  overridden c (world st' p).
Proof.
  intro Hf. cbv zeta.
  destruct (NotifyBegin_found Mesh p T st Hf) as (Hs & _ & _ & Ho). cbv zeta in Hs, Ho.
  rewrite Hs. cbn [BeganMembers WithSnapshot OriginalCapsuleSettings Snapshot
    CollisionEnabled CollisionProfileName bGenerateOverlapEvents CustomResponses
    bForceQueryOnly bOverrideCollisionEnabled bOverrideCollisionProfileName
    bOverrideGenerateOverlapEvents bOverrideCustomResponses].
  repeat split; try assumption; try apply Ho.
  intros ch Hch. now apply last_response_table.
Qed.

(** C8.  After a Begin that found its capsule, with linear blend options, take
    any run of Ticks with non-negative frame times and in it a Tick [x] and a
    later Tick [y].  If both take the blend-in branch, the raw alpha of [y] is
    no smaller than that of [x]; if both take the blend-out branch, it is no
    larger; and a Tick whose elapsed time lies in the hold window has raw
    alpha exactly 1. *)
Theorem C8_raw_alpha_monotone (Mesh : USkeletalMeshComponent) (p : ptr) (T : Q)
    (st : State) (d1 : list Q) (x : Q) (d2 : list Q) (y : Q) :
  FindCapsuleComponent Mesh = Some p ->
  BlendOptionIn cfg = Linear ->
  BlendOptionOut cfg = Linear ->
  Forall (fun dt => 0 <= dt) (d1 ++ x :: d2 ++ [y]) ->
  let stB := NotifyBegin (Some Mesh) T st in
  let s1 := self (Ticks d1 stB) in
  let s2 := self (Ticks (d1 ++ x :: d2) stB) in
  (PhaseAt x s1 = BlendInPhase -> PhaseAt y s2 = BlendInPhase ->
     RawAlphaAt x s1 <= RawAlphaAt y s2) /\
  (BlendTimeIn cfg <= ElapsedTime s1 + x <= T - BlendTimeOut cfg ->
     RawAlphaAt x s1 = 1) /\
  (PhaseAt x s1 = BlendOutPhase -> PhaseAt y s2 = BlendOutPhase ->
     RawAlphaAt y s2 <= RawAlphaAt x s1).
Proof.
  intros Hf Hin Hout Hpos. cbv zeta.
  apply Forall_app in Hpos. destruct Hpos as [Hd1 Hpos].
  inversion Hpos as [|? ? Hx Hrest]; subst.
  apply Forall_app in Hrest. destruct Hrest as [Hd2 Hy].
  inversion Hy as [|? ? Hy' _]; subst. clear Hy Hpos.
  set (stB := NotifyBegin (Some Mesh) T st).
  set (st1 := Ticks d1 stB).
  assert (Hst2 : Ticks (d1 ++ x :: d2) stB = Ticks d2 (NotifyTick x st1)).
  { now rewrite Ticks_app, Ticks_cons. }
  rewrite Hst2.
  assert (Ha1 : IsActive (self st1) = true) by now apply (IsActive_after_Begin Mesh p).
  assert (Hsx : self (NotifyTick x st1) = TickedMembers x (self st1)).
  { now rewrite NotifyTick_self, Ha1. }
  set (s1 := self st1) in *.
  set (s2 := self (Ticks d2 (NotifyTick x st1))).
  assert (HB : self stB = BeganMembers p (world st p) T (self st)).
  { destruct (NotifyBegin_found Mesh p T st Hf) as (Hs & _). exact Hs. }
  assert (A01 : Advances (self stB) s1) by now apply Advances_Ticks.
  assert (A12 : Advances (TickedMembers x s1) s2).
  { unfold s2. rewrite <- Hsx. now apply Advances_Ticks. }
  assert (A1x : Advances s1 (TickedMembers x s1)) by now apply Advances_TickedMembers.
  assert (A2y : Advances s2 (TickedMembers y s2)) by now apply Advances_TickedMembers.
  pose proof (Advances_trans _ _ _ A01 A1x) as A0x.
  pose proof (Advances_trans _ _ _ A12 A2y) as Axy.
  pose proof (Advances_trans _ _ _ A0x Axy) as A0y.
  assert (HoI : FAlphaBlend.BlendOption (BlendInAlpha (self stB)) = Linear)
    by (rewrite HB; exact Hin).
  assert (HoO : FAlphaBlend.BlendOption (BlendOutAlpha (self stB)) = Linear)
    by (rewrite HB; exact Hout).
  destruct A0x as (_ & _ & _ & Ox1 & _ & _ & Ox2 & _).
  destruct A0y as (_ & _ & _ & Oy1 & _ & _ & Oy2 & _).
  destruct Axy as (_ & _ & Bt1 & _ & Pr1 & Bt2 & _ & Pr2).
  split; [|split].
  - intros Px Py. rewrite !RawAlphaAt_phase, Px, Py.
    apply Clamp_mono; [lra|].
    apply GetBlendedValue_mono; try congruence; assumption.
  - intros [Hlo Hhi]. rewrite RawAlphaAt_phase.
    assert (Hph : PhaseAt x s1 = HoldPhase).
    { unfold PhaseAt, SelectPhase.
      destruct A01 as (Ht & _). rewrite Ht, HB.
      cbn [BeganMembers WithSnapshot CaptureMembers ResetMembers NotifyTotalDuration].
      replace (Qlt_bool (ElapsedTime s1 + x) (BlendTimeIn cfg)) with false
        by (symmetry; apply Qlt_bool_false; exact Hlo).
      rewrite andb_false_r.
      replace (Qle_bool (BlendTimeIn cfg) (ElapsedTime s1 + x)) with true
        by (symmetry; apply Qle_bool_iff; exact Hlo).
      replace (Qle_bool (ElapsedTime s1 + x) (T - BlendTimeOut cfg)) with true
        by (symmetry; apply Qle_bool_iff; exact Hhi).
      reflexivity. }
    rewrite Hph. reflexivity.
  - intros Px Py. rewrite !RawAlphaAt_phase, Px, Py.
    apply Clamp_mono; [lra|].
    assert (FAlphaBlend.GetBlendedValue (BlendOutAlpha (TickedMembers x s1)) <=
            FAlphaBlend.GetBlendedValue (BlendOutAlpha (TickedMembers y s2))).
    { apply GetBlendedValue_mono; try congruence; assumption. }
    lra.
Qed.


Section ScenarioRun.

Variable Mesh : USkeletalMeshComponent.
Variable p : ptr.
Variable T : Q.
Variable st : State.

Hypothesis Hfound : FindCapsuleComponent Mesh = Some p.
Hypothesis HT : T == 2.
Hypothesis HIn : BlendTimeIn cfg == 1 # 2.
Hypothesis HOut : BlendTimeOut cfg == 1 # 2.
Hypothesis Heps : KINDA_SMALL_NUMBER < 1 # 2.
Hypothesis HLinIn : BlendOptionIn cfg = Linear.
Hypothesis HLinOut : BlendOptionOut cfg = Linear.
Hypothesis HNoEase : NoEaseCurve.
Hypothesis HModify : bModifyRadius cfg = true.
Hypothesis HNew : NewRadius cfg == 50.
Hypothesis HOld : GetUnscaledCapsuleRadius (world st p) == 30.

Lemma scenario_begin : ScenarioInv (self (NotifyBegin (Some Mesh) T st)).
Proof.
  destruct (NotifyBegin_found Mesh p T st Hfound) as (Hs & _). cbv zeta in Hs.
  rewrite Hs. unfold ScenarioInv.
  cbn [BeganMembers WithSnapshot CaptureMembers ResetMembers NotifyTotalDuration
       ElapsedTime BlendInAlpha BlendOutAlpha FAlphaBlend.Create FAlphaBlend.BlendTime
       FAlphaBlend.BlendOption FAlphaBlend.Progress].
  replace (Qlt_bool KINDA_SMALL_NUMBER (BlendTimeIn cfg)) with true
    by (symmetry; apply Qlt_bool_true; lra).
  replace (Qlt_bool KINDA_SMALL_NUMBER (BlendTimeOut cfg)) with true
    by (symmetry; apply Qlt_bool_true; lra).
  repeat split; try assumption; try lra.
Qed.

(** The radius that a Tick writes in the scenario. *)
Lemma scenario_tick_radius (dts : list Q) (dt : Q) :
  Forall (fun dt => 0 <= dt) dts ->
  let st0 := Ticks dts (NotifyBegin (Some Mesh) T st) in
  ScenarioInv (self st0) /\
  ElapsedTime (self (NotifyTick dt st0)) = ElapsedTime (self st0) + dt /\
  GetUnscaledCapsuleRadius (world (NotifyTick dt st0) p) ==
    30 + RawAlphaAt dt (self st0) * 20.
Proof.
  intro Hpos. cbv zeta.
  destruct (Ticks_after_Begin Mesh p T dts st Hfound) as (e & bi & bo & HsT).
  set (st0 := Ticks dts (NotifyBegin (Some Mesh) T st)) in *.
  assert (Hv : bHasValidOriginals (self st0) = true) by now rewrite HsT.
  assert (Hp : CapsuleComp (self st0) = Some p) by now rewrite HsT.
  split; [|split].
  - apply ScenarioInv_Ticks; auto using scenario_begin.
  - rewrite NotifyTick_self.
    replace (IsActive (self st0)) with true
      by (symmetry; apply IsActive_true; eauto).
    apply TickedMembers_Elapsed.
  - destruct (NotifyTick_attributes dt st0 p Hv Hp) as (V1 & _). cbv zeta in V1.
    rewrite V1, HModify, TickAlpha_raw by assumption. rewrite HsT.
    cbn [Retimed BeganMembers WithSnapshot CaptureMembers OriginalRadius TargetRadius].
    rewrite HModify. unfold FMath.Lerp. rewrite HNew, HOld. ring.
Qed.

(** C6 (amended).  Total duration 2, blend-in 1/2, blend-out 1/2, linear
    options, no ease curve, radius modified from 30 toward 50, any Ticks with
    non-negative frame times: the radius reads 40 when the elapsed time is 1/4
    and 50 when it is 1; on runs where a Tick landed exactly on elapsed time
    3/2, where the blend-out window opens, it reads 34 when the elapsed time
    is 19/10; after End it is 30.  Since 19/10 is no single-precision number,
    the value is also given with a margin: when the Tick that follows the one
    that landed on 3/2 brings the elapsed time within 10^-6 of 19/10, the
    radius is within 10^-4 of 34.  Nothing is said of the blend-out window on
    runs where no Tick landed on 3/2. *)
Theorem C6_scenario_radius (d1 d2 : list Q) :
  Forall (fun dt => 0 <= dt) (d1 ++ d2) ->
  let st1 := Ticks d1 (NotifyBegin (Some Mesh) T st) in
  let st2 := Ticks d2 st1 in
  let e := ElapsedTime (self st2) in
  let r := GetUnscaledCapsuleRadius (world st2 p) in
  (e == 1 # 4 -> r == 40) /\
  (e == 1 -> r == 50) /\
  (ElapsedTime (self st1) == 3 # 2 -> e == 19 # 10 -> r == 34) /\
  (ElapsedTime (self st1) == 3 # 2 -> List.length d2 = 1%nat ->
   (19 # 10) - (1 # 1000000) <= e <= (19 # 10) + (1 # 1000000) ->
   34 - (1 # 10000) <= r <= 34 + (1 # 10000)) /\
  GetUnscaledCapsuleRadius (world (NotifyEnd st2) p) == 30.
Proof.
  intro Hpos. cbv zeta.
  assert (Hend : GetUnscaledCapsuleRadius
                   (world (NotifyEnd (Ticks d2 (Ticks d1 (NotifyBegin (Some Mesh) T st)))) p)
                 == 30).
  { destruct (Lifecycle_attributes Mesh p T (d1 ++ d2) st Hfound) as (E1 & _).
    cbv zeta in E1. rewrite run_Lifecycle, Ticks_app in E1. now rewrite E1. }
  apply Forall_app in Hpos. destruct Hpos as [Hd1 Hd2].
  assert (Hgen :
    (ElapsedTime (self (Ticks d2 (Ticks d1 (NotifyBegin (Some Mesh) T st)))) == 1 # 4 ->
     GetUnscaledCapsuleRadius (world (Ticks d2 (Ticks d1 (NotifyBegin (Some Mesh) T st))) p)
     == 40) /\
    (ElapsedTime (self (Ticks d2 (Ticks d1 (NotifyBegin (Some Mesh) T st)))) == 1 ->
     GetUnscaledCapsuleRadius (world (Ticks d2 (Ticks d1 (NotifyBegin (Some Mesh) T st))) p)
     == 50) /\
    (ElapsedTime (self (Ticks d1 (NotifyBegin (Some Mesh) T st))) == 3 # 2 ->
     3 # 2 <= ElapsedTime (self (Ticks d2 (Ticks d1 (NotifyBegin (Some Mesh) T st)))) <= 2 ->
     GetUnscaledCapsuleRadius (world (Ticks d2 (Ticks d1 (NotifyBegin (Some Mesh) T st))) p)
     == 30 + 40 *
        (2 - ElapsedTime (self (Ticks d2 (Ticks d1 (NotifyBegin (Some Mesh) T st))))))).
  { destruct d2 as [|dt d2'] using rev_ind.
    - change (Ticks [] ?s) with s in *.
      destruct d1 as [|dt d1'] using rev_ind.
      + change (Ticks [] ?s) with s in *.
        destruct (NotifyBegin_found Mesh p T st Hfound) as (Hs & _). cbv zeta in Hs.
        rewrite Hs.
        cbn [BeganMembers WithSnapshot CaptureMembers ResetMembers ElapsedTime].
        repeat split; intros; lra.
      + clear IHd1'. apply Forall_app in Hd1. destruct Hd1 as [Hd1 Hdt].
        inversion Hdt as [|? ? Hdt' _]; subst. rewrite Ticks_snoc in *.
        destruct (scenario_tick_radius d1' dt Hd1) as (HI & He & Hr).
        cbv zeta in HI, He, Hr.
        destruct (scenario_raw_alpha HIn HOut Heps dt _ Hdt' HI) as (A1 & A2 & _).
        cbv zeta in A1, A2. rewrite He, Hr.
        repeat split.
        * intro H. rewrite (A1 H). reflexivity.
        * intro H. rewrite A2 by lra. reflexivity.
        * intros H3 _. rewrite A2 by lra. lra.
    - clear IHd2'. apply Forall_app in Hd2. destruct Hd2 as [Hd2 Hdt].
      inversion Hdt as [|? ? Hdt' _]; subst. rewrite Ticks_snoc in *.
      rewrite <- Ticks_app in *.
      assert (Hall : Forall (fun dt => 0 <= dt) (d1 ++ d2')) by (apply Forall_app; auto).
      destruct (scenario_tick_radius (d1 ++ d2') dt Hall) as (HI & He & Hr).
      cbv zeta in HI, He, Hr.
      destruct (scenario_raw_alpha HIn HOut Heps dt _ Hdt' HI) as (A1 & A2 & A3).
      cbv zeta in A1, A2, A3. rewrite He, Hr.
      repeat split.
      + intro H. rewrite (A1 H). reflexivity.
      + intro H. rewrite A2 by lra. reflexivity.
      + intros H3 [Hlo Hhi].
        assert (HO1 : ScenarioOut (self (Ticks d1 (NotifyBegin (Some Mesh) T st)))).
        { pose proof (ScenarioInv_Ticks HIn HOut Heps d1 _ Hd1 scenario_begin) as HI1.
          split; [exact HI1|]. split; [lra|].
          destruct HI1 as (_ & _ & _ & _ & _ & _ & _ & _ & _ & Hz). rewrite Hz; lra. }
        pose proof (ScenarioOut_Ticks HIn HOut Heps d2' _ Hd2 HO1) as HO2.
        rewrite <- Ticks_app in HO2.
        destruct (Qlt_le_dec (3 # 2)
                    (ElapsedTime (self (Ticks (d1 ++ d2') (NotifyBegin (Some Mesh) T st)))
                     + dt)) as [C|C].
        * rewrite A3; [lra | lra | exact HO2].
        * rewrite A2 by lra. lra. }
  destruct Hgen as (G1 & G2 & G3).
  split; [exact G1|]. split; [exact G2|]. split; [|split; [|exact Hend]].
  - intros H3 He. rewrite G3; [|exact H3|lra]. rewrite He. reflexivity.
  - intros H3 _ [Hlo Hhi]. rewrite G3; [|exact H3|lra]. lra.
Qed.

End ScenarioRun.

(** ** Further properties of the three entry points *)

(** A log without calls through [q] leaves the component at [q] as it was. *)
Lemma replay_other_ptr (l : list (ptr * Write)) :
  forall w q, Forall (fun pe => fst pe <> q) l -> replay l w q = w q.
Proof.
  induction l as [|pe l IH]; intros w q Hl; [reflexivity|].
  inversion Hl as [|? ? Hpe Hl']; subst. simpl. rewrite IH by assumption.
  unfold replay_step. destruct (Nat.eqb q (fst pe)) eqn:E; [|reflexivity].
  apply Nat.eqb_eq in E. congruence.
Qed.

Lemma TracksAt_other_ptr (P : ptr * Write -> Prop) (c : cmd) (st : State) (q : ptr) :
  TracksAt P c st ->
  (forall pe, P pe -> fst pe <> q) ->
  world (c st) q = world st q.
Proof.
  intros (l & [_ Hw] & F) HP. rewrite Hw. apply replay_other_ptr.
  eapply Forall_impl; [|exact F]. auto.
Qed.

(** Ticks on a notify that points at [p] write gated attributes of [p] only. *)
Lemma Tracks_Ticks (p : ptr) (dts : list Q) :
  forall st, CapsuleComp (self st) = Some p ->
             TracksAt (gated_attribute p) (Ticks dts) st.
Proof.
  induction dts as [|dt dts IH]; intros st Hp.
  - now apply TracksAt_none.
  - change (TracksAt (gated_attribute p) (seq (NotifyTick dt) (Ticks dts)) st).
    apply TracksAt_seq.
    + eapply TracksAt_weaken; [|apply Tracks_NotifyTick].
      intros pe (Hq & _ & Hg). rewrite Hp in Hq. injection Hq as Hq. now rewrite Hq.
    + apply IH. destruct (Ticks_self [dt] st) as (e & bi & bo & H).
      change (Ticks [dt] st) with (NotifyTick dt st) in H. rewrite H. exact Hp.
Qed.

(** Every setter call of a lifecycle goes through the located capsule, with
    its modify flag set. *)
Lemma Tracks_Lifecycle (Mesh : USkeletalMeshComponent) (p : ptr) (T : Q)
    (dts : list Q) (st : State) :
  FindCapsuleComponent Mesh = Some p ->
  TracksAt (gated p) (run (Lifecycle Mesh T dts)) st.
Proof.
  intro Hf.
  assert (E : forall s, run (Lifecycle Mesh T dts) s =
                        seq (NotifyBegin (Some Mesh) T) (seq (Ticks dts) NotifyEnd) s)
    by (intro s; apply run_Lifecycle).
  unfold TracksAt, issues. rewrite E.
  change (TracksAt (gated p)
            (seq (NotifyBegin (Some Mesh) T) (seq (Ticks dts) NotifyEnd)) st).
  destruct (NotifyBegin_found Mesh p T st Hf) as (Hs & Ht & _). cbv zeta in Hs.
  assert (HpB : CapsuleComp (self (NotifyBegin (Some Mesh) T st)) = Some p)
    by now rewrite Hs.
  destruct (Ticks_after_Begin Mesh p T dts st Hf) as (e & bi & bo & HsT).
  apply TracksAt_seq; [|apply TracksAt_seq].
  - eapply TracksAt_weaken; [|exact Ht]. intros pe (Hg & _). exact Hg.
  - eapply TracksAt_weaken; [|apply (Tracks_Ticks p dts _ HpB)].
    intros pe (Hg & _). exact Hg.
  - eapply TracksAt_weaken; [|apply Tracks_NotifyEnd].
    intros pe (Hq & _ & Hg). rewrite HsT in Hq. injection Hq as Hq.
    destruct Hg as [_ Hg]. split; [now rewrite Hq | exact Hg].
Qed.

(** X1.  After Begin, any Ticks and End on a located capsule, whatever the
    modify flags, blend settings, ease curve and frame times, radius,
    half-height and scale read as before Begin; the line thickness reads as
    before Begin when its flag is off and otherwise as the member
    [OriginalLineThickness] held before Begin; the shape color reads as before
    when its flag is off and otherwise as the [FColor] of its linear
    reinterpretation. *)
Theorem X1_lifecycle_end_values (Mesh : USkeletalMeshComponent) (p : ptr) (T : Q)
    (dts : list Q) (st : State) :
  FindCapsuleComponent Mesh = Some p ->
  let c := world st p in
  let c' := world (NotifyEnd (Ticks dts (NotifyBegin (Some Mesh) T st))) p in
  GetUnscaledCapsuleRadius c' = GetUnscaledCapsuleRadius c /\
  GetUnscaledCapsuleHalfHeight c' = GetUnscaledCapsuleHalfHeight c /\
  GetRelativeScale3D c' = GetRelativeScale3D c /\
  LineThickness c' =
    (if bModifyLineThickness cfg then OriginalLineThickness (self st)
     else LineThickness c) /\
  ShapeColor c' =
    (if bModifyShapeColor cfg then ToFColor (ReinterpretAsLinear (ShapeColor c)) true
     else ShapeColor c).
Proof.
  intro Hf. cbv zeta. rewrite <- run_Lifecycle. now apply Lifecycle_attributes.
Qed.

(** X2.  Every setter call of a lifecycle goes through the capsule that the
    locator returned at Begin: the log grows by calls on that address only and
    the component at any other address is left exactly as it was. *)
Theorem X2_only_located_capsule_written (Mesh : USkeletalMeshComponent) (p : ptr)
    (T : Q) (dts : list Q) (st : State) :
  FindCapsuleComponent Mesh = Some p ->
  let st' := NotifyEnd (Ticks dts (NotifyBegin (Some Mesh) T st)) in
  (exists l, writes st' = writes st ++ l /\ Forall (fun pe => fst pe = p) l) /\
  forall q, q <> p -> world st' q = world st q.
Proof.
  intro Hf. cbv zeta. rewrite <- run_Lifecycle.
  pose proof (Tracks_Lifecycle Mesh p T dts st Hf) as Ht. split.
  - destruct Ht as (l & [Hl _] & Fl). exists l. split; [exact Hl|].
    eapply Forall_impl; [|exact Fl]. intros pe [Hq _]. exact Hq.
  - intros q Hq. apply (TracksAt_other_ptr _ _ st q Ht).
    intros pe [Hp _]. congruence.
Qed.

Lemma overridden_ext_r (c c' c'' : UCapsuleComponent) :
  (forall k, is_attribute k = false -> same_on k c'' c') ->
  overridden c c' -> overridden c c''.
Proof.
  intros H (He & Hn & Ho & Hr).
  pose proof (H KCollisionEnabled eq_refl) as He'.
  pose proof (H KProfileName eq_refl) as Hn'.
  pose proof (H KOverlapEvents eq_refl) as Ho'.
  pose proof (H KResponse eq_refl) as Hr'.
  simpl in He', Hn', Ho', Hr'. unfold overridden.
  rewrite He', Hn', Ho'. repeat split; try assumption.
  intro ch. rewrite (Hr' ch). apply Hr.
Qed.

(** X3.  Ticks issue setter calls for the five attributes only: after a Begin
    that found its capsule and any Ticks, the collision settings of the capsule
    read exactly as the configured overrides left them at Begin. *)
Theorem X3_ticks_leave_collision_alone (Mesh : USkeletalMeshComponent) (p : ptr)
    (T : Q) (dts : list Q) (st : State) :
  FindCapsuleComponent Mesh = Some p ->
  let stB := NotifyBegin (Some Mesh) T st in
  let stT := Ticks dts stB in
  (exists l, writes stT = writes stB ++ l /\
             Forall (fun pe => is_attribute (kind (snd pe)) = true) l) /\
  overridden (world st p) (world stT p).
Proof.
  intro Hf. cbv zeta.
  destruct (NotifyBegin_found Mesh p T st Hf) as (Hs & _ & _ & Ho). cbv zeta in Hs, Ho.
  assert (HpB : CapsuleComp (self (NotifyBegin (Some Mesh) T st)) = Some p)
    by now rewrite Hs.
  pose proof (Tracks_Ticks p dts _ HpB) as Ht. split.
  - destruct Ht as (l & [Hl _] & Fl). exists l. split; [exact Hl|].
    eapply Forall_impl; [|exact Fl]. intros pe [_ Ha]. exact Ha.
  - apply overridden_ext_r with (world (NotifyBegin (Some Mesh) T st) p); [|exact Ho].
    intros k Hk. apply (TracksAt_same_on _ _ _ k Ht).
    intros pe [_ Ha] E. subst k. congruence.
Qed.

(** X4.  When the blend-in duration exceeds [KINDA_SMALL_NUMBER], Begin issues
    no attribute setter call: the five attributes of the capsule read after
    Begin as before, whatever the modify flags. *)
Theorem X4_blended_begin_writes_no_attribute (Mesh : USkeletalMeshComponent) (p : ptr)
    (T : Q) (st : State) :
  FindCapsuleComponent Mesh = Some p ->
  KINDA_SMALL_NUMBER < BlendTimeIn cfg ->
  let st' := NotifyBegin (Some Mesh) T st in
  (exists l, writes st' = writes st ++ l /\
             Forall (fun pe => is_attribute (kind (snd pe)) = false) l) /\
  GetUnscaledCapsuleRadius (world st' p) = GetUnscaledCapsuleRadius (world st p) /\
  GetUnscaledCapsuleHalfHeight (world st' p) =
    GetUnscaledCapsuleHalfHeight (world st p) /\
  GetRelativeScale3D (world st' p) = GetRelativeScale3D (world st p) /\
  LineThickness (world st' p) = LineThickness (world st p) /\
  ShapeColor (world st' p) = ShapeColor (world st p).
Proof.
  intros Hf Hlt. cbv zeta.
  assert (Hi : InstantBlendIn = false) by (apply Qle_bool_false; exact Hlt).
  destruct (NotifyBegin_found Mesh p T st Hf) as (_ & Ht & _).
  destruct (NotifyBegin_attributes Mesh p T st Hf) as (V1 & V2 & V3 & V4 & V5).
  cbv zeta in V1, V2, V3, V4, V5. rewrite Hi in V1, V2, V3, V4, V5.
  split; [|repeat split; assumption].
  destruct Ht as (l & [Hl _] & Fl). exists l. split; [exact Hl|].
  eapply Forall_impl; [|exact Fl]. intros pe (_ & Ha & _).
  destruct (is_attribute (kind (snd pe))); [|reflexivity].
  specialize (Ha eq_refl). congruence.
Qed.


Lemma NotifyEnd_deactivates (st : State) : IsActive (self (NotifyEnd st)) = false.
Proof.
  destruct (IsActive (self st)) eqn:Ea.
  - apply IsActive_true in Ea. destruct Ea as [Hv [p Hp]].
    now rewrite (NotifyEnd_active st p Hv Hp).
  - now rewrite NotifyEnd_inactive.
Qed.

(** X6.  The members belong to the notify, not to a capsule.  When Begin runs
    for a second mesh before End ran for the first (instant blend-in, radius
    modified, two distinct capsules), the first End restores the second
    capsule and the second End does nothing: the first capsule keeps the
    configured radius and the notify ends inactive. *)
Theorem X6_second_begin_orphans_first_capsule (M1 M2 : USkeletalMeshComponent)
    (p1 p2 : ptr) (T1 T2 : Q) (st : State) :
  FindCapsuleComponent M1 = Some p1 ->
  FindCapsuleComponent M2 = Some p2 ->
  p1 <> p2 ->
  BlendTimeIn cfg <= KINDA_SMALL_NUMBER ->
  bModifyRadius cfg = true ->
  let st' := run [CallBegin (Some M1) T1; CallBegin (Some M2) T2; CallEnd; CallEnd] st in
  GetUnscaledCapsuleRadius (world st' p1) = NewRadius cfg /\
  GetUnscaledCapsuleRadius (world st' p2) = GetUnscaledCapsuleRadius (world st p2) /\
  IsActive (self st') = false.
Proof.
  intros Hf1 Hf2 Hne Hin Hm. cbv zeta.
  set (st1 := NotifyBegin (Some M1) T1 st).
  change (run [CallBegin (Some M1) T1; CallBegin (Some M2) T2; CallEnd; CallEnd] st)
    with (NotifyEnd (run (Lifecycle M2 T2 []) st1)).
  rewrite NotifyEnd_inactive
    by (rewrite run_Lifecycle; apply NotifyEnd_deactivates).
  assert (Hi : InstantBlendIn = true) by (apply Qle_bool_iff; exact Hin).
  destruct (NotifyBegin_attributes M1 p1 T1 st Hf1) as (V1 & _). cbv zeta in V1.
  rewrite Hi, Hm in V1. fold st1 in V1.
  destruct (NotifyBegin_found M1 p1 T1 st Hf1) as (_ & Ht1 & _).
  pose proof (Tracks_Lifecycle M2 p2 T2 [] st1 Hf2) as Ht2.
  destruct (Lifecycle_attributes M2 p2 T2 [] st1 Hf2) as (E1 & _). cbv zeta in E1.
  split; [|split].
  - rewrite (TracksAt_other_ptr _ _ st1 p1 Ht2); [exact V1|].
    intros pe [Hq _]. congruence.
  - rewrite E1. unfold st1. rewrite (TracksAt_other_ptr _ _ st p2 Ht1); [reflexivity|].
    intros pe [[Hq _] _]. congruence.
  - rewrite run_Lifecycle. apply NotifyEnd_deactivates.
Qed.

(** X7.  A second Begin on the same capsule before End captures the values
    that the first Begin snapped in: with an instant blend-in and the radius
    modified, after Begin, Begin, any Ticks and End the radius reads as the
    configured radius rather than the value before the first Begin. *)
Theorem X7_second_begin_recaptures (Mesh : USkeletalMeshComponent) (p : ptr)
    (T1 T2 : Q) (dts : list Q) (st : State) :
  FindCapsuleComponent Mesh = Some p ->
  BlendTimeIn cfg <= KINDA_SMALL_NUMBER ->
  bModifyRadius cfg = true ->
  let st' := run (CallBegin (Some Mesh) T1 :: Lifecycle Mesh T2 dts) st in
  GetUnscaledCapsuleRadius (world st' p) = NewRadius cfg /\
  OriginalRadius (self st') = NewRadius cfg.
Proof.
  intros Hf Hin Hm. cbv zeta.
  set (st1 := NotifyBegin (Some Mesh) T1 st).
  change (run (CallBegin (Some Mesh) T1 :: Lifecycle Mesh T2 dts) st)
    with (run (Lifecycle Mesh T2 dts) st1).
  assert (Hi : InstantBlendIn = true) by (apply Qle_bool_iff; exact Hin).
  destruct (NotifyBegin_attributes Mesh p T1 st Hf) as (V1 & _). cbv zeta in V1.
  rewrite Hi, Hm in V1. fold st1 in V1.
  destruct (Lifecycle_attributes Mesh p T2 dts st1 Hf) as (E1 & _). cbv zeta in E1.
  split; [now rewrite E1|].
  rewrite run_Lifecycle.
  destruct (Ticks_after_Begin Mesh p T2 dts st1 Hf) as (e & bi & bo & HsT).
  set (stT := Ticks dts (NotifyBegin (Some Mesh) T2 st1)) in *.
  assert (Hv : bHasValidOriginals (self stT) = true) by now rewrite HsT.
  assert (Hp : CapsuleComp (self stT) = Some p) by now rewrite HsT.
  destruct (NotifyEnd_found stT p Hv Hp) as (Hs & _). cbv zeta in Hs.
  rewrite Hs, HsT. exact V1.
Qed.

(** X8.  End issues, after the gated attribute calls, exactly these collision
    calls in this order: the collision mode, the profile name, the overlap
    flag, then one response call per channel 0 .. ECC_MAX-1, each with the
    value the capsule had before Begin. *)
Theorem X8_end_collision_calls_in_order (Mesh : USkeletalMeshComponent) (p : ptr)
    (T : Q) (dts : list Q) (st : State) :
  FindCapsuleComponent Mesh = Some p ->
  let stT := Ticks dts (NotifyBegin (Some Mesh) T st) in
  let c := world st p in
  exists l,
    Forall (fun pe => is_attribute (kind (snd pe)) = true) l /\
    writes (NotifyEnd stT) =
      writes stT ++ l ++
      [(p, WCollisionEnabled (GetCollisionEnabled c));
       (p, WCollisionProfileName (GetCollisionProfileName c));
       (p, WGenerateOverlapEvents (GetGenerateOverlapEvents c))] ++
      map (fun ch => (p, WCollisionResponseToChannel ch
                           (GetCollisionResponseToChannel c ch)))
          (List.seq 0 ECC_MAX).
Proof.
  intro Hf. cbv zeta.
  destruct (Ticks_after_Begin Mesh p T dts st Hf) as (e & bi & bo & HsT).
  set (stT := Ticks dts (NotifyBegin (Some Mesh) T st)) in *.
  assert (Hv : bHasValidOriginals (self stT) = true) by now rewrite HsT.
  assert (Hp : CapsuleComp (self stT) = Some p) by now rewrite HsT.
  destruct (NotifyEnd_found stT p Hv Hp) as (_ & (l & Fl & Hl) & _). cbv zeta in Hl.
  exists l. split.
  - eapply Forall_impl; [|exact Fl]. intros pe [_ Ha]. exact Ha.
  - rewrite Hl, HsT.
    cbn [Retimed BeganMembers WithSnapshot OriginalCapsuleSettings].
    unfold restore_calls, Snapshot, response_table.
    cbn [CollisionEnabled CollisionProfileName bGenerateOverlapEvents CustomResponses].
    rewrite map_map. reflexivity.
Qed.

(** *** The blend-in ramp and long frames in the blend-out window *)

(** What the branch taken says about where the elapsed time landed. *)
Lemma PhaseAt_spec (dt : Q) (s : NotifyState) :
  let e := ElapsedTime s + dt in
  let T := NotifyTotalDuration s in
  match PhaseAt dt s with
  | BlendInPhase => KINDA_SMALL_NUMBER < BlendTimeIn cfg /\ e < BlendTimeIn cfg
  | HoldPhase => BlendTimeIn cfg <= e /\ e <= T - BlendTimeOut cfg
  | BlendOutPhase =>
      KINDA_SMALL_NUMBER < BlendTimeOut cfg /\ T - BlendTimeOut cfg < e /\
      (BlendTimeIn cfg <= KINDA_SMALL_NUMBER \/ BlendTimeIn cfg <= e)
  | ZeroBlendCase =>
      (BlendTimeIn cfg <= KINDA_SMALL_NUMBER \/ BlendTimeIn cfg <= e) /\
      (BlendTimeOut cfg <= KINDA_SMALL_NUMBER \/ e <= T - BlendTimeOut cfg)
  end.
Proof.
  cbv zeta. unfold PhaseAt, SelectPhase.
  destruct (Qlt_bool KINDA_SMALL_NUMBER (BlendTimeIn cfg)) eqn:E1;
    destruct (Qlt_bool (ElapsedTime s + dt) (BlendTimeIn cfg)) eqn:E2;
    destruct (Qle_bool (BlendTimeIn cfg) (ElapsedTime s + dt)) eqn:E3;
    destruct (Qle_bool (ElapsedTime s + dt) (NotifyTotalDuration s - BlendTimeOut cfg))
      eqn:E4;
    destruct (Qlt_bool KINDA_SMALL_NUMBER (BlendTimeOut cfg)) eqn:E5;
    destruct (Qlt_bool (NotifyTotalDuration s - BlendTimeOut cfg) (ElapsedTime s + dt))
      eqn:E6;
    cbn [andb]; qbool; repeat split; auto; try lra.
Qed.




Lemma BlendOutAfter_TickedMembers (dt : Q) (s : NotifyState) :
  BlendOutAfter dt s = BlendOutAlpha (TickedMembers dt s).
Proof.
  unfold BlendOutAfter, TickedMembers. cbv zeta.
  now destruct (ComputeRawAlpha dt (AdvanceElapsed dt s)) as [[a bi] bo].
Qed.

(** X10.  A Tick that takes the blend-out branch advances the blend-out
    evaluator by its whole frame time, not by the part of it that lies in the
    blend-out window ([OutElapsed] of line 128 is not read).  So after a Begin
    that found its capsule and Ticks with non-negative frame times, a Tick on
    the blend-out branch whose frame time is at least the blend-out duration
    completes the linear blend-out at once: raw alpha 0, wherever in the
    window its clock lands. *)
Theorem X10_long_frame_completes_blend_out (Mesh : USkeletalMeshComponent) (p : ptr)
    (T : Q) (dts : list Q) (dt : Q) (st : State) :
  FindCapsuleComponent Mesh = Some p ->
  0 <= KINDA_SMALL_NUMBER ->
  BlendOptionOut cfg = Linear ->
  Forall (fun d => 0 <= d) dts ->
  let s := self (Ticks dts (NotifyBegin (Some Mesh) T st)) in
  PhaseAt dt s = BlendOutPhase ->
  BlendTimeOut cfg <= dt ->
  FAlphaBlend.Progress (BlendOutAfter dt s) = FAlphaBlend.Progress (BlendOutAlpha s) + dt /\
  FAlphaBlend.GetBlendedValue (BlendOutAfter dt s) = 1 /\
  RawAlphaAt dt s == 0.
Proof.
  intros Hf He Hlin Hd. cbv zeta. intros Hph Hlong.
  pose proof (Advances_Ticks dts (NotifyBegin (Some Mesh) T st) Hd)
    as (_ & _ & _ & _ & _ & Bt & Bo & Pr).
  set (s := self (Ticks dts (NotifyBegin (Some Mesh) T st))) in *.
  pose proof (PhaseAt_spec dt s) as Hs. cbv zeta in Hs. rewrite Hph in Hs.
  destruct Hs as (Hout & _).
  destruct (NotifyBegin_found Mesh p T st Hf) as (HsB & _). cbv zeta in HsB.
  rewrite HsB in Bt, Bo, Pr.
  cbn [BeganMembers WithSnapshot CaptureMembers ResetMembers BlendOutAlpha
       FAlphaBlend.Create FAlphaBlend.BlendTime FAlphaBlend.BlendOption
       FAlphaBlend.Progress] in Bt, Bo, Pr.
  replace (Qlt_bool KINDA_SMALL_NUMBER (BlendTimeOut cfg)) with true in Bt
    by (symmetry; apply Qlt_bool_true; exact Hout).
  assert (Hup : BlendOutAfter dt s = FAlphaBlend.Update dt (BlendOutAlpha s)).
  { now rewrite BlendOutAfter_TickedMembers, TickedMembers_BlendOut, Hph. }
  assert (Hone : FAlphaBlend.GetBlendedValue (BlendOutAfter dt s) = 1).
  { rewrite Hup. unfold FAlphaBlend.GetBlendedValue, FAlphaBlend.GetAlpha.
    cbn [FAlphaBlend.Update FAlphaBlend.BlendOption FAlphaBlend.BlendTime
         FAlphaBlend.Progress].
    rewrite Bo, Hlin, Bt.
    replace (Qle_bool (BlendTimeOut cfg) 0) with false
      by (symmetry; apply Qle_bool_false; lra).
    assert (Hq : 1 <= (FAlphaBlend.Progress (BlendOutAlpha s) + dt) / BlendTimeOut cfg)
      by (apply Qle_shift_div_l; lra).
    unfold FMath.Clamp.
    replace (Qlt_bool ((FAlphaBlend.Progress (BlendOutAlpha s) + dt) / BlendTimeOut cfg) 0)
      with false by (symmetry; apply Qlt_bool_false; lra).
    replace (Qlt_bool ((FAlphaBlend.Progress (BlendOutAlpha s) + dt) / BlendTimeOut cfg) 1)
      with false by (symmetry; apply Qlt_bool_false; lra).
    reflexivity. }
  split; [now rewrite Hup|]. split; [exact Hone|].
  rewrite RawAlphaAt_phase, Hph, <- BlendOutAfter_TickedMembers, Hone.
  vm_compute. reflexivity.
Qed.

(** X11.  A Begin that finds its capsule rebuilds the members from the capsule
    and the configuration: whatever an earlier activation left in them, the
    members after Begin depend on the earlier members through
    [OriginalLineThickness] only. *)
Theorem X11_begin_reinitialises_members (Mesh : USkeletalMeshComponent) (p : ptr)
    (T : Q) (st st' : State) :
  FindCapsuleComponent Mesh = Some p ->
  world st p = world st' p ->
  OriginalLineThickness (self st) = OriginalLineThickness (self st') ->
  self (NotifyBegin (Some Mesh) T st) = self (NotifyBegin (Some Mesh) T st').
Proof.
  intros Hf Hw Hl.
  destruct (NotifyBegin_found Mesh p T st Hf) as (Hs & _).
  destruct (NotifyBegin_found Mesh p T st' Hf) as (Hs' & _).
  cbv zeta in Hs, Hs'. rewrite Hs, Hs', Hw.
  unfold BeganMembers, WithSnapshot, CaptureMembers, ResetMembers.
  cbn [ElapsedTime NotifyTotalDuration OriginalLineThickness OriginalCapsuleSettings].
  rewrite Hl. reflexivity.
Qed.

(** X12.  A Begin that finds no capsule deactivates the notify without
    restoring anything: after a Begin that snapped the radius in (instant
    blend-in, radius modified), a failed Begin and then End leave the capsule
    at the configured radius and issue no setter call. *)
Theorem X12_failed_begin_orphans_capsule (Mesh : USkeletalMeshComponent) (p : ptr)
    (MeshComp : option USkeletalMeshComponent) (T1 T2 : Q) (st : State) :
  FindCapsuleComponent Mesh = Some p ->
  match MeshComp with
  | None => True
  | Some Other => FindCapsuleComponent Other = None
  end ->
  BlendTimeIn cfg <= KINDA_SMALL_NUMBER ->
  bModifyRadius cfg = true ->
  let st1 := NotifyBegin (Some Mesh) T1 st in
  let st' := run [CallBegin MeshComp T2; CallEnd] st1 in
  world st' = world st1 /\ writes st' = writes st1 /\
  GetUnscaledCapsuleRadius (world st' p) = NewRadius cfg.
Proof.
  intros Hf Hfail Hin Hm. cbv zeta.
  set (st1 := NotifyBegin (Some Mesh) T1 st).
  change (run [CallBegin MeshComp T2; CallEnd] st1)
    with (NotifyEnd (NotifyBegin MeshComp T2 st1)).
  rewrite (NotifyBegin_failed MeshComp T2 st1 Hfail).
  rewrite NotifyEnd_inactive by reflexivity.
  cbn [world writes set_self].
  assert (Hi : InstantBlendIn = true) by (apply Qle_bool_iff; exact Hin).
  destruct (NotifyBegin_attributes Mesh p T1 st Hf) as (V1 & _). cbv zeta in V1.
  rewrite Hi, Hm in V1. repeat split. exact V1.
Qed.

End Notify.

Arguments CallBegin {USkeletalMeshComponent} MeshComp TotalDuration.
Arguments CallTick {USkeletalMeshComponent} FrameDeltaTime.
Arguments CallEnd {USkeletalMeshComponent}.

(** ** The statements on the sample inputs *)

Local Abbreviation SampleBegin cfg :=
  (NotifyBegin Sample.Mesh Sample.Locate Sample.ECC_MAX Sample.KINDA_SMALL_NUMBER
     Sample.ToFColor cfg (Some tt) 2).
Local Abbreviation SampleTicks cfg :=
  (Ticks Sample.Mesh Sample.Locate Sample.ECC_MAX Sample.KINDA_SMALL_NUMBER
     Sample.ToFColor cfg).
Local Abbreviation SampleRun cfg :=
  (run Sample.Mesh Sample.Locate Sample.ECC_MAX Sample.KINDA_SMALL_NUMBER
     Sample.ToFColor cfg).
Local Abbreviation SampleEnd cfg := (NotifyEnd Sample.ToFColor cfg).

(** C1 (fails on the code).  Begin reads the radius, the half-height, the
    scale and the shape color of the capsule but not its line thickness:
    [OriginalLineThickness] keeps what it held before.  On the sample capsule
    (line thickness 5) with the line thickness modified, Begin leaves
    [OriginalLineThickness] at 0, and after Begin, two Ticks and End the line
    thickness reads 0, not 5. *)
Theorem C1_line_thickness_not_restored :
  let before := Sample.Start in
  let begun := SampleBegin Sample.Blended before in
  let after :=
    SampleRun Sample.Blended (Lifecycle Sample.Mesh tt 2 [1 # 4; 3 # 4]) before in
  bModifyLineThickness Sample.Blended = true /\
  LineThickness (world before 0%nat) = 5 /\
  OriginalLineThickness (self begun) = 0 /\
  LineThickness (world after 0%nat) = 0.
Proof. vm_compute. repeat split. Qed.

Lemma C2_witness :
  same_on KHalfHeight
    (world (SampleRun Sample.Blended (Lifecycle Sample.Mesh tt 2 [1 # 4; 3 # 4])
              Sample.Start) 0%nat)
    (world Sample.Start 0%nat).
Proof.
  exact (proj2 (C2_unmodified_attribute_never_written Sample.Mesh Sample.Locate
                  Sample.ECC_MAX Sample.KINDA_SMALL_NUMBER Sample.ToFColor Sample.Blended
                  (Lifecycle Sample.Mesh tt 2 [1 # 4; 3 # 4]) Sample.Start KHalfHeight
                  eq_refl) 0%nat).
Defined.

Lemma C3_witness :
  let failed :=
    NotifyBegin Sample.Mesh Sample.LocateNothing Sample.ECC_MAX Sample.KINDA_SMALL_NUMBER
      Sample.ToFColor Sample.Blended (Some tt) 2 Sample.Start in
  world failed = world Sample.Start /\
  run Sample.Mesh Sample.LocateNothing Sample.ECC_MAX Sample.KINDA_SMALL_NUMBER
    Sample.ToFColor Sample.Blended [CallTick (1 # 4); CallEnd] failed = failed.
Proof.
  destruct (C3_inactive_session_is_inert Sample.Mesh Sample.LocateNothing Sample.ECC_MAX
              Sample.KINDA_SMALL_NUMBER Sample.ToFColor Sample.Blended (Some tt) 2
              Sample.Start Sample.Start Sample.Start [CallTick (1 # 4); CallEnd]
              eq_refl eq_refl eq_refl) as [(_ & Hw & _ & Hr) _].
  split; [exact Hw | exact Hr].
Defined.

Lemma C4_witness :
  GetUnscaledCapsuleRadius (world (SampleBegin (Sample.Instant None) Sample.Start) 0%nat)
  = 50.
Proof.
  assert (Hle : BlendTimeIn (Sample.Instant None) <= Sample.KINDA_SMALL_NUMBER)
    by (unfold Qle; simpl; lia).
  destruct (C4_instant_blend_in_snaps_at_begin Sample.Mesh Sample.Locate Sample.ECC_MAX
              Sample.KINDA_SMALL_NUMBER Sample.ToFColor (Sample.Instant None) tt 0%nat 2
              Sample.Start eq_refl Hle) as [H _].
  destruct (H eq_refl) as [H1 H2]. exact (eq_trans H1 H2).
Defined.



Lemma C6_witness :
  let st1 :=
    SampleTicks Sample.Blended [1 # 4; 3 # 4; 1 # 2]
      (SampleBegin Sample.Blended Sample.Start) in
  GetUnscaledCapsuleRadius (world (SampleTicks Sample.Blended [2 # 5] st1) 0%nat) == 34 /\
  34 - (1 # 10000) <=
    GetUnscaledCapsuleRadius
      (world (SampleTicks Sample.Blended [3355443 # 8388608] st1) 0%nat)
    <= 34 + (1 # 10000).
Proof.
  assert (Heps : Sample.KINDA_SMALL_NUMBER < 1 # 2) by (unfold Qlt; simpl; lia).
  assert (H1 : ElapsedTime
                 (self (SampleTicks Sample.Blended [1 # 4; 3 # 4; 1 # 2]
                          (SampleBegin Sample.Blended Sample.Start))) == 3 # 2)
    by (vm_compute; reflexivity).
  split.
  - assert (Hpos : Forall (fun dt => 0 <= dt) ([1 # 4; 3 # 4; 1 # 2] ++ [2 # 5]))
      by (repeat constructor; unfold Qle; simpl; lia).
    destruct (C6_scenario_radius Sample.Mesh Sample.Locate Sample.ECC_MAX
                Sample.KINDA_SMALL_NUMBER Sample.ToFColor Sample.Blended tt 0%nat 2
                Sample.Start eq_refl (Qeq_refl 2) (Qeq_refl (1 # 2)) (Qeq_refl (1 # 2)) Heps
                eq_refl eq_refl I eq_refl (Qeq_refl 50) (Qeq_refl 30)
                [1 # 4; 3 # 4; 1 # 2] [2 # 5] Hpos) as (_ & _ & H & _).
    apply (H H1). vm_compute. reflexivity.
  - assert (Hpos : Forall (fun dt => 0 <= dt)
                     ([1 # 4; 3 # 4; 1 # 2] ++ [3355443 # 8388608]))
      by (repeat constructor; unfold Qle; simpl; lia).
    destruct (C6_scenario_radius Sample.Mesh Sample.Locate Sample.ECC_MAX
                Sample.KINDA_SMALL_NUMBER Sample.ToFColor Sample.Blended tt 0%nat 2
                Sample.Start eq_refl (Qeq_refl 2) (Qeq_refl (1 # 2)) (Qeq_refl (1 # 2)) Heps
                eq_refl eq_refl I eq_refl (Qeq_refl 50) (Qeq_refl 30)
                [1 # 4; 3 # 4; 1 # 2] [3355443 # 8388608] Hpos) as (_ & _ & _ & H & _).
    apply (H H1 eq_refl). split; vm_compute; discriminate.
Defined.

(** In the scenario, Ticks of 1/4, 3/4, 1/2 and 2/5 bring the elapsed time to
    19/10, where the radius reads 34, not 40.  The same with the last frame
    time cut so that the elapsed time is the single-precision value of 1.9
    (15938355 * 2^-23): the radius is not 40 there either. *)
Lemma C6_counterexample :
  let st2 :=
    SampleTicks Sample.Blended [1 # 4; 3 # 4; 1 # 2; 2 # 5]
      (SampleBegin Sample.Blended Sample.Start) in
  let st2' :=
    SampleTicks Sample.Blended [1 # 4; 3 # 4; 1 # 2; 3355443 # 8388608]
      (SampleBegin Sample.Blended Sample.Start) in
  (ElapsedTime (self st2) == 19 # 10 /\
   ~ GetUnscaledCapsuleRadius (world st2 0%nat) == 40) /\
  (ElapsedTime (self st2') == 15938355 # 8388608 /\
   ~ GetUnscaledCapsuleRadius (world st2' 0%nat) == 40).
Proof.
  vm_compute. repeat split; try reflexivity; discriminate.
Qed.

Lemma C7_witness :
  let stB := SampleBegin Sample.Blended Sample.Start in
  let stE := SampleEnd Sample.Blended (SampleTicks Sample.Blended [1 # 4] stB) in
  GetCollisionEnabled (world stB 0%nat) = QueryOnly /\
  GetCollisionEnabled (world stE 0%nat) = QueryAndPhysics.
Proof.
  destruct (C7_collision_override_scoping Sample.Mesh Sample.Locate Sample.ECC_MAX
              Sample.KINDA_SMALL_NUMBER Sample.ToFColor Sample.Blended tt 0%nat 2
              [1 # 4] Sample.Start eq_refl) as (_ & (Ho & _) & _ & He & _).
  split; [exact Ho | exact He].
Defined.

Lemma C8_witness :
  let stB := SampleBegin Sample.Blended Sample.Start in
  RawAlphaAt Sample.KINDA_SMALL_NUMBER Sample.Blended (1 # 8) (self stB) <=
  RawAlphaAt Sample.KINDA_SMALL_NUMBER Sample.Blended (1 # 8)
    (self (SampleTicks Sample.Blended [1 # 8; 1 # 8] stB)).
Proof.
  assert (Hpos : Forall (fun dt => 0 <= dt) ([] ++ (1 # 8) :: [1 # 8] ++ [1 # 8]))
    by (repeat constructor; unfold Qle; simpl; lia).
  destruct (C8_raw_alpha_monotone Sample.Mesh Sample.Locate Sample.ECC_MAX
              Sample.KINDA_SMALL_NUMBER Sample.ToFColor Sample.Blended tt 0%nat 2
              Sample.Start [] (1 # 8) [1 # 8] (1 # 8) eq_refl eq_refl eq_refl Hpos)
    as (H & _).
  apply H; vm_compute; reflexivity.
Defined.

Lemma C9_witness :
  RawAlphaAt Sample.KINDA_SMALL_NUMBER Sample.Blended (1 # 2)
    (self (SampleTicks Sample.Blended [1] (SampleBegin Sample.Blended Sample.Start))) = 1.
Proof.
  assert (H1 : ElapsedTime
                 (self (SampleTicks Sample.Blended [1]
                          (SampleBegin Sample.Blended Sample.Start))) + (1 # 2) ==
               NotifyTotalDuration
                 (self (SampleTicks Sample.Blended [1]
                          (SampleBegin Sample.Blended Sample.Start))) -
               BlendTimeOut Sample.Blended)
    by (vm_compute; reflexivity).
  assert (H2 : BlendTimeIn Sample.Blended <=
               ElapsedTime
                 (self (SampleTicks Sample.Blended [1]
                          (SampleBegin Sample.Blended Sample.Start))) + (1 # 2))
    by (vm_compute; discriminate).
  destruct (C9_hold_wins_at_blend_out_boundary Sample.KINDA_SMALL_NUMBER Sample.ToFColor
              Sample.Blended (1 # 2)
              (SampleTicks Sample.Blended [1] (SampleBegin Sample.Blended Sample.Start))
              H1 H2) as (_ & H & _).
  exact H.
Defined.

Lemma C10_witness :
  let stB := SampleBegin Sample.Blended Sample.Start in
  CollisionEnabled (OriginalCapsuleSettings (self stB)) = QueryAndPhysics /\
  GetCollisionEnabled (world stB 0%nat) = QueryOnly.
Proof.
  destruct (C10_collision_saved_and_applied_at_begin Sample.Mesh Sample.Locate
              Sample.ECC_MAX Sample.KINDA_SMALL_NUMBER Sample.ToFColor Sample.Blended
              tt 0%nat 2 Sample.Start eq_refl) as ((Hs & _) & (Ho & _)).
  split; [exact Hs | exact Ho].
Defined.

Lemma X1_witness :
  GetUnscaledCapsuleRadius
    (world (SampleEnd Sample.Blended
              (SampleTicks Sample.Blended [1 # 4; 3 # 4]
                 (SampleBegin Sample.Blended Sample.Start))) 0%nat) = 30.
Proof.
  destruct (X1_lifecycle_end_values Sample.Mesh Sample.Locate Sample.ECC_MAX
              Sample.KINDA_SMALL_NUMBER Sample.ToFColor Sample.Blended tt 0%nat 2
              [1 # 4; 3 # 4] Sample.Start eq_refl) as (H & _).
  exact H.
Defined.

Lemma X2_witness :
  world (SampleEnd Sample.Blended
           (SampleTicks Sample.Blended [1 # 4; 3 # 4]
              (SampleBegin Sample.Blended Sample.Start))) 1%nat
  = world Sample.Start 1%nat.
Proof.
  apply (proj2 (X2_only_located_capsule_written Sample.Mesh Sample.Locate Sample.ECC_MAX
                  Sample.KINDA_SMALL_NUMBER Sample.ToFColor Sample.Blended tt 0%nat 2
                  [1 # 4; 3 # 4] Sample.Start eq_refl)).
  discriminate.
Defined.

Lemma X3_witness :
  GetCollisionEnabled
    (world (SampleTicks Sample.Blended [1 # 4; 3 # 4]
              (SampleBegin Sample.Blended Sample.Start)) 0%nat) = QueryOnly.
Proof.
  destruct (X3_ticks_leave_collision_alone Sample.Mesh Sample.Locate Sample.ECC_MAX
              Sample.KINDA_SMALL_NUMBER Sample.ToFColor Sample.Blended tt 0%nat 2
              [1 # 4; 3 # 4] Sample.Start eq_refl) as (_ & (H & _)).
  exact H.
Defined.

Lemma X4_witness :
  GetUnscaledCapsuleRadius (world (SampleBegin Sample.Blended Sample.Start) 0%nat) = 30.
Proof.
  assert (Hlt : Sample.KINDA_SMALL_NUMBER < BlendTimeIn Sample.Blended)
    by (unfold Qlt; simpl; lia).
  destruct (X4_blended_begin_writes_no_attribute Sample.Mesh Sample.Locate Sample.ECC_MAX
              Sample.KINDA_SMALL_NUMBER Sample.ToFColor Sample.Blended tt 0%nat 2
              Sample.Start eq_refl Hlt) as (_ & H & _).
  exact H.
Defined.


Lemma X6_witness :
  GetUnscaledCapsuleRadius
    (world (run bool Sample.LocateTwo Sample.ECC_MAX Sample.KINDA_SMALL_NUMBER
              Sample.ToFColor (Sample.Instant None)
              [CallBegin (Some false) 2; CallBegin (Some true) 2; CallEnd; CallEnd]
              Sample.Start) 0%nat) = 50.
Proof.
  assert (Hle : BlendTimeIn (Sample.Instant None) <= Sample.KINDA_SMALL_NUMBER)
    by (unfold Qle; simpl; lia).
  assert (Hne : 0%nat <> 1%nat) by discriminate.
  destruct (X6_second_begin_orphans_first_capsule bool Sample.LocateTwo Sample.ECC_MAX
              Sample.KINDA_SMALL_NUMBER Sample.ToFColor (Sample.Instant None)
              false true 0%nat 1%nat 2 2 Sample.Start eq_refl eq_refl Hne Hle eq_refl)
    as (H & _).
  exact H.
Defined.

Lemma X7_witness :
  GetUnscaledCapsuleRadius
    (world (SampleRun (Sample.Instant None)
              (CallBegin (Some tt) 2 :: Lifecycle Sample.Mesh tt 2 [1 # 4])
              Sample.Start) 0%nat) = 50.
Proof.
  assert (Hle : BlendTimeIn (Sample.Instant None) <= Sample.KINDA_SMALL_NUMBER)
    by (unfold Qle; simpl; lia).
  destruct (X7_second_begin_recaptures Sample.Mesh Sample.Locate Sample.ECC_MAX
              Sample.KINDA_SMALL_NUMBER Sample.ToFColor (Sample.Instant None)
              tt 0%nat 2 2 [1 # 4] Sample.Start eq_refl Hle eq_refl) as (H & _).
  exact H.
Defined.

Lemma X8_witness :
  let stT := SampleTicks Sample.Blended [1 # 4] (SampleBegin Sample.Blended Sample.Start) in
  exists l,
    Forall (fun pe => is_attribute (kind (snd pe)) = true) l /\
    writes (SampleEnd Sample.Blended stT) =
      writes stT ++ l ++
      [(0%nat, WCollisionEnabled QueryAndPhysics);
       (0%nat, WCollisionProfileName "Pawn"%string);
       (0%nat, WGenerateOverlapEvents true)] ++
      map (fun ch => (0%nat, WCollisionResponseToChannel ch ECR_Block))
          (List.seq 0 Sample.ECC_MAX).
Proof.
  exact (X8_end_collision_calls_in_order Sample.Mesh Sample.Locate Sample.ECC_MAX
           Sample.KINDA_SMALL_NUMBER Sample.ToFColor Sample.Blended tt 0%nat 2
           [1 # 4] Sample.Start eq_refl).
Defined.


Lemma X10_witness :
  RawAlphaAt Sample.KINDA_SMALL_NUMBER Sample.Blended (3 # 4)
    (self (SampleTicks Sample.Blended [1] (SampleBegin Sample.Blended Sample.Start)))
  == 0.
Proof.
  assert (He : 0 <= Sample.KINDA_SMALL_NUMBER) by (unfold Qle; simpl; lia).
  assert (Hpos : Forall (fun d => 0 <= d) [1])
    by (repeat constructor; unfold Qle; simpl; lia).
  assert (Hlong : BlendTimeOut Sample.Blended <= 3 # 4) by (unfold Qle; simpl; lia).
  destruct (X10_long_frame_completes_blend_out Sample.Mesh Sample.Locate Sample.ECC_MAX
              Sample.KINDA_SMALL_NUMBER Sample.ToFColor Sample.Blended tt 0%nat 2
              [1] (3 # 4) Sample.Start eq_refl He eq_refl Hpos eq_refl Hlong)
    as (_ & _ & H).
  exact H.
Defined.

Lemma X11_witness :
  self (SampleBegin Sample.Blended Sample.Start) =
  self (SampleBegin Sample.Blended
          (set_self (AdvanceElapsed 3 Sample.Fresh) Sample.Start)).
Proof.
  exact (X11_begin_reinitialises_members Sample.Mesh Sample.Locate Sample.ECC_MAX
           Sample.KINDA_SMALL_NUMBER Sample.ToFColor Sample.Blended tt 0%nat 2
           Sample.Start (set_self (AdvanceElapsed 3 Sample.Fresh) Sample.Start)
           eq_refl eq_refl eq_refl).
Defined.

Lemma X12_witness :
  GetUnscaledCapsuleRadius
    (world (SampleRun (Sample.Instant None) [CallBegin None 2; CallEnd]
              (SampleBegin (Sample.Instant None) Sample.Start)) 0%nat) = 50.
Proof.
  assert (Hle : BlendTimeIn (Sample.Instant None) <= Sample.KINDA_SMALL_NUMBER)
    by (unfold Qle; simpl; lia).
  destruct (X12_failed_begin_orphans_capsule Sample.Mesh Sample.Locate Sample.ECC_MAX
              Sample.KINDA_SMALL_NUMBER Sample.ToFColor (Sample.Instant None)
              tt 0%nat None 2 2 Sample.Start eq_refl I Hle eq_refl) as (_ & _ & H).
  exact H.
Defined.
